(** * demo-devops-agent: the DynamoDB writer and the webhook notifier

    A shallow embedding of the two Lambda handlers of the repository
    ([lambda/writer.ts] and the two revisions of the webhook notifier)
    together with the properties their specification states.

    JavaScript values are modelled the way the handlers use them:
    - a string is its sequence of UTF-16 code units;
    - a number produced by [parseInt] is [NaN] or an integer;
    - [undefined] fields of the inbound event are [None];
    - a rejected promise / thrown exception is the [Throw] completion. *)

From Stdlib Require Import ZArith NArith List String Ascii Bool Lia.
From Stdlib Require Import Permutation DecimalString.
From Stdlib Require Init.Byte DecimalPos DecimalZ.
Import ListNotations.

Local Open Scope Z_scope.

(* ================================================================== *)
(** ** The fragment of the JavaScript runtime the handlers rely on     *)
(* ================================================================== *)

Module JS.

(** A string value: UTF-16 code units. *)
Definition jsstring := list N.

(** A source literal (ASCII only in both handlers). *)
Definition lit (s : string) : jsstring :=
  map N_of_ascii (list_ascii_of_string s).

(** [a === b] on strings. *)
Fixpoint str_eqb (a b : jsstring) : bool :=
  match a, b with
  | [], [] => true
  | x :: a', y :: b' => N.eqb x y && str_eqb a' b'
  | _, _ => false
  end.

(** ToBoolean on a string: only the empty string is falsy. *)
Definition truthy (s : jsstring) : bool :=
  match s with [] => false | _ :: _ => true end.

(** [v || d] where [v] is a string or [undefined]. *)
Definition or_else (v : option jsstring) (d : jsstring) : jsstring :=
  match v with
  | Some s => if truthy s then s else d
  | None => d
  end.

(** [String.prototype.startsWith] and [String.prototype.includes]. *)
Fixpoint startsWith (s p : jsstring) {struct p} : bool :=
  match p with
  | [] => true
  | c :: p' =>
      match s with
      | [] => false
      | d :: s' => N.eqb c d && startsWith s' p'
      end
  end.

Fixpoint includes (s sub : jsstring) : bool :=
  startsWith s sub ||
  match s with
  | [] => false
  | _ :: s' => includes s' sub
  end.

(** The characters matched by the regular expression class [\s]
    (WhiteSpace and LineTerminator of ECMA-262); all of them are single
    code units. *)
Definition is_whitespace (c : N) : bool :=
  ((9 <=? c) && (c <=? 13) || (c =? 32) || (c =? 160) || (c =? 5760)
   || (8192 <=? c) && (c <=? 8202) || (c =? 8232) || (c =? 8233)
   || (c =? 8239) || (c =? 8287) || (c =? 12288) || (c =? 65279))%N.

(** A number as [parseInt] yields it. *)
Inductive jsnum :=
| NaN
| Num (z : Z).

(** Template-literal rendering of an integer number.  Decimal notation is
    what the runtime prints below 10^21, which covers every count, status
    code and epoch-millisecond value the handlers format. *)
Definition Number_toString (z : Z) : jsstring :=
  lit (NilZero.string_of_int (Z.to_int z)).

Definition jsnum_toString (n : jsnum) : jsstring :=
  match n with
  | NaN => lit "NaN"
  | Num z => Number_toString z
  end.

(** [parseInt(s, 10)]: leading white space is skipped, an optional sign is
    read, then the longest run of decimal digits; no digit gives [NaN].
    The integer read is kept exact, which is the runtime's result for
    every integer of magnitude up to 2^53; beyond that the runtime rounds
    to the nearest double (and gives Infinity for very long digit
    strings), which is not modelled: the properties stated of the
    runtime's result stay within that bound. *)
Fixpoint skip_whitespace (s : jsstring) : jsstring :=
  match s with
  | c :: s' => if is_whitespace c then skip_whitespace s' else s
  | [] => []
  end.

Definition is_digit (c : N) : bool := ((48 <=? c) && (c <=? 57))%N.

Fixpoint read_digits (acc : option Z) (s : jsstring) : option Z :=
  match s with
  | c :: s' =>
      if is_digit c
      then read_digits
             (Some (10 * match acc with Some a => a | None => 0 end
                    + Z.of_N (c - 48)))
             s'
      else acc
  | [] => acc
  end.

Definition parseInt10 (s : jsstring) : jsnum :=
  let t := skip_whitespace s in
  let '(neg, digits) :=
    match t with
    | c :: t' =>
        if (c =? 45)%N then (true, t')
        else if (c =? 43)%N then (false, t')
        else (false, t)
    | [] => (false, [])
    end in
  match read_digits None digits with
  | None => NaN
  | Some z => Num (if neg then - z else z)
  end.

(** The largest length an array can have. *)
Definition MAX_ARRAY_LENGTH : Z := 2 ^ 32 - 1.

(** ToLength of a number read by [parseInt]. *)
Definition ToLength (n : jsnum) : Z :=
  match n with
  | NaN => 0
  | Num z => Z.min (Z.max z 0) (2 ^ 53 - 1)
  end.

(** The indices visited by [Array.from({ length: n }, f)]; a length above
    the array limit raises RangeError ([None]). *)
Definition Array_from_length (n : jsnum) : option (list nat) :=
  let len := ToLength n in
  if len <=? MAX_ARRAY_LENGTH then Some (seq 0 (Z.to_nat len)) else None.

(** An exception value: the [name] and [message] of the thrown object. *)
Record JsError := mkError {
  name : option jsstring;
  message : jsstring
}.

(** [new Error(msg)]. *)
Definition new_Error (msg : jsstring) : JsError :=
  {| name := Some (lit "Error"); message := msg |}.

Definition RangeError_invalid_length : JsError :=
  {| name := Some (lit "RangeError"); message := lit "Invalid array length" |}.

(** How an async function settles. *)
Inductive Completion (A : Type) :=
| Return (a : A)
| Throw (e : JsError).
Arguments Return {A} a.
Arguments Throw {A} e.

End JS.

Import JS.

(* ================================================================== *)
(** ** lambda/writer.ts                                                *)
(* ================================================================== *)

Module Writer.

Record WriteResult := mkWriteResult {
  success : Z;
  throttled : Z;
  errors : Z;
  totalAttempts : jsnum
}.

(** How one [client.send(new PutItemCommand ...)] settles. *)
Inductive PutOutcome :=
| Fulfilled
| Rejected (err : JsError).

(** [const WRITE_COUNT = parseInt(process.env.WRITE_COUNT || '50', 10)]. *)
Definition WRITE_COUNT_of_env (v : option jsstring) : jsnum :=
  parseInt10 (or_else v (lit "50")).

Definition ProvisionedThroughputExceededException : jsstring :=
  lit "ProvisionedThroughputExceededException".

(** [err.name === 'ProvisionedThroughputExceededException']. *)
Definition is_throttle (err : JsError) : bool :=
  match name err with
  | Some n => str_eqb n ProvisionedThroughputExceededException
  | None => false
  end.

(** The body of the try/catch of one attempt, as an update of the shared
    [results] object. *)
Definition settle (o : PutOutcome) (results : WriteResult) : WriteResult :=
  match o with
  | Fulfilled =>
      {| success := success results + 1;
         throttled := throttled results;
         errors := errors results;
         totalAttempts := totalAttempts results |}
  | Rejected err =>
      if is_throttle err
      then {| success := success results;
              throttled := throttled results + 1;
              errors := errors results;
              totalAttempts := totalAttempts results |}
      else {| success := success results;
              throttled := throttled results;
              errors := errors results + 1;
              totalAttempts := totalAttempts results |}
  end.

Definition initial_results (WRITE_COUNT : jsnum) : WriteResult :=
  {| success := 0; throttled := 0; errors := 0;
     totalAttempts := WRITE_COUNT |}.

(** The attempts settle one at a time on the event loop, in some order
    [order] of their indices; [store i] is the outcome of attempt [i]. *)
Definition settle_all (store : nat -> PutOutcome) (order : list nat)
           (results : WriteResult) : WriteResult :=
  fold_left (fun r i => settle (store i) r) order results.

(** The indices for which a write is dispatched (the array of promises);
    [None] when the array cannot be created. *)
Definition dispatched (WRITE_COUNT : jsnum) : option (list nat) :=
  Array_from_length WRITE_COUNT.

(** The [results] object once [Promise.all] has resolved. *)
Definition aggregate (WRITE_COUNT : jsnum) (store : nat -> PutOutcome)
  : option WriteResult :=
  match dispatched WRITE_COUNT with
  | None => None
  | Some idx => Some (settle_all store idx (initial_results WRITE_COUNT))
  end.

Definition throttle_message (results : WriteResult) : jsstring :=
  lit "Throttling occurred: " ++ Number_toString (throttled results)
  ++ lit "/" ++ jsnum_toString (totalAttempts results)
  ++ lit " requests were throttled".

(** [handler]: the item contents (keys, padding, random suffix) and the
    console output do not influence the result and are left out. *)
Definition handler (WRITE_COUNT : jsnum) (store : nat -> PutOutcome)
  : Completion WriteResult :=
  match aggregate WRITE_COUNT store with
  | None => Throw RangeError_invalid_length
  | Some results =>
      if 0 <? throttled results
      then Throw (new_Error (throttle_message results))
      else Return results
  end.

(** The number of attempts the store rejected for exceeded capacity. *)
Definition count_throttled (store : nat -> PutOutcome) (idx : list nat) : Z :=
  Z.of_nat (List.length
    (filter (fun i => match store i with
                      | Rejected err => is_throttle err
                      | Fulfilled => false
                      end) idx)).

(** A batch size the runtime can dispatch. *)
Definition dispatchable (WRITE_COUNT : jsnum) : Prop :=
  ToLength WRITE_COUNT <= MAX_ARRAY_LENGTH.

End Writer.


(** Stores used in the examples. *)
Module WriterSamples.
Import Writer.

(** The store of the second end-to-end example: capacity is exceeded from
    index 40 on. *)
Definition store_throttling_from_40 (i : nat) : PutOutcome :=
  if (40 <=? i)%nat
  then Rejected {| name := Some ProvisionedThroughputExceededException;
                   message := lit "The level of configured provisioned throughput for the table was exceeded" |}
  else Fulfilled.

Definition store_always_ok (_ : nat) : PutOutcome := Fulfilled.

Definition store_always_throttling (_ : nat) : PutOutcome :=
  Rejected {| name := Some ProvisionedThroughputExceededException;
              message := lit "exceeded" |}.

Definition store_always_failing (_ : nat) : PutOutcome :=
  Rejected {| name := Some (lit "ValidationException");
              message := lit "invalid" |}.

End WriterSamples.

(* ================================================================== *)
(** ** UTF-8 encoding of a string ([Buffer.from(s, 'utf8')])           *)
(* ================================================================== *)

Module Utf8.

Definition byte_of (n : N) : Byte.byte :=
  match Byte.of_N (N.land n 0xFF) with
  | Some b => b
  | None => Byte.x00
  end.

Definition is_high_surrogate (c : N) : bool :=
  ((0xD800 <=? c) && (c <=? 0xDBFF))%N.

Definition is_low_surrogate (c : N) : bool :=
  ((0xDC00 <=? c) && (c <=? 0xDFFF))%N.

Definition encode_code_point (cp : N) : list Byte.byte :=
  (if cp <? 0x80 then [byte_of cp]
   else if cp <? 0x800 then
     [byte_of (N.lor 0xC0 (N.shiftr cp 6));
      byte_of (N.lor 0x80 (N.land cp 0x3F))]
   else if cp <? 0x10000 then
     [byte_of (N.lor 0xE0 (N.shiftr cp 12));
      byte_of (N.lor 0x80 (N.land (N.shiftr cp 6) 0x3F));
      byte_of (N.lor 0x80 (N.land cp 0x3F))]
   else
     [byte_of (N.lor 0xF0 (N.shiftr cp 18));
      byte_of (N.lor 0x80 (N.land (N.shiftr cp 12) 0x3F));
      byte_of (N.lor 0x80 (N.land (N.shiftr cp 6) 0x3F));
      byte_of (N.lor 0x80 (N.land cp 0x3F))])%N.

(** U+FFFD, written for a surrogate that has no partner. *)
Definition replacement : list Byte.byte := encode_code_point 0xFFFD.

Fixpoint encode (s : jsstring) : list Byte.byte :=
  match s with
  | [] => []
  | c :: rest =>
      if is_high_surrogate c then
        match rest with
        | l :: rest' =>
            if is_low_surrogate l
            then encode_code_point
                   (0x10000 + (c - 0xD800) * 0x400 + (l - 0xDC00))%N
                 ++ encode rest'
            else replacement ++ encode rest
        | [] => replacement
        end
      else if is_low_surrogate c then replacement ++ encode rest
      else encode_code_point c ++ encode rest
  end.

(** [Buffer.byteLength(s)]. *)
Definition byteLength (s : jsstring) : Z := Z.of_nat (List.length (encode s)).

End Utf8.

(* ================================================================== *)
(** ** What both revisions of the webhook notifier share               *)
(* ================================================================== *)

Module Webhook.

(** The inbound event; a field the event lacks is [None].  Only the
    fields a handler reads are kept. *)
Record AlarmState := {
  value : option jsstring;
  reason : option jsstring;
  timestamp : option jsstring
}.

Record AlarmData := {
  alarmName : option jsstring;
  state : option AlarmState
}.

Record CloudWatchAlarmEvent := {
  alarmArn : option jsstring;
  accountId : option jsstring;
  region : option jsstring;
  alarmData : option AlarmData
}.

(** [process.env]. *)
Definition ProcessEnv := string -> option jsstring.

(** [const WEBHOOK_ENABLED = process.env.WEBHOOK_ENABLED === 'true'] and
    the two constants next to it. *)
Definition WEBHOOK_ENABLED (env : ProcessEnv) : bool :=
  match env "WEBHOOK_ENABLED"%string with
  | Some v => str_eqb v (lit "true")
  | None => false
  end.

Definition WEBHOOK_URL (env : ProcessEnv) : jsstring :=
  or_else (env "WEBHOOK_URL"%string) (lit "").

Definition WEBHOOK_SECRET (env : ProcessEnv) : jsstring :=
  or_else (env "WEBHOOK_SECRET"%string) (lit "").

(** [event.alarmData?.alarmName], [event.alarmData?.state?.value], ... *)
Definition alarmData_alarmName (event : CloudWatchAlarmEvent) : option jsstring :=
  match alarmData event with
  | Some d => alarmName d
  | None => None
  end.

Definition alarmData_state (event : CloudWatchAlarmEvent) : option AlarmState :=
  match alarmData event with
  | Some d => state d
  | None => None
  end.

Definition state_value (event : CloudWatchAlarmEvent) : option jsstring :=
  match alarmData_state event with
  | Some s => value s
  | None => None
  end.

Definition state_reason (event : CloudWatchAlarmEvent) : option jsstring :=
  match alarmData_state event with
  | Some s => reason s
  | None => None
  end.

Definition state_timestamp (event : CloudWatchAlarmEvent) : option jsstring :=
  match alarmData_state event with
  | Some s => timestamp s
  | None => None
  end.

(** [const alarmState = event.alarmData?.state?.value || 'UNKNOWN']. *)
Definition alarmState (event : CloudWatchAlarmEvent) : jsstring :=
  or_else (state_value event) (lit "UNKNOWN").

(** The parts of a parsed URL the sender reads. *)
Record URL := {
  hostname : jsstring;
  port : jsstring;
  pathname : jsstring;
  search : jsstring
}.

(** [parsedUrl.port || 443]. *)
Inductive Port :=
| PortString (s : jsstring)
| PortNumber (n : Z).

Record Headers := {
  Content_Type : jsstring;
  Content_Length : Z;
  x_amzn_event_timestamp : jsstring;
  x_amzn_event_signature : jsstring
}.

Record RequestOptions := {
  opt_hostname : jsstring;
  opt_port : Port;
  opt_path : jsstring;
  opt_method : jsstring;
  opt_headers : Headers
}.

(** One request as the transport sees it: the options and the bytes
    written to it before [end]. *)
Record Request := {
  options : RequestOptions;
  body : list Byte.byte
}.

(** What the transport reports back: a response with its status code and
    the chunks received before 'end', or an 'error' event. *)
Inductive TransportResult :=
| Responded (statusCode : option Z) (chunks : list jsstring)
| Failed (error : JsError).

(** The runtime services of the notifier: the clock (its k-th reading),
    [Date.prototype.toISOString], the HMAC-SHA256 and base64 of [crypto],
    the URL parser ([None]: the constructor throws) and the HTTPS
    transport. *)
Record Runtime := {
  clock : nat -> Z;
  toISOString : Z -> jsstring;
  hmac_sha256 : list Byte.byte -> list Byte.byte -> list Byte.byte;
  base64 : list Byte.byte -> jsstring;
  parse_URL : jsstring -> option URL;
  https_request : Request -> TransportResult
}.

Definition TypeError_invalid_URL : JsError :=
  {| name := Some (lit "TypeError"); message := lit "Invalid URL" |}.

(** [`${res.statusCode}`]. *)
Definition statusCode_toString (sc : option Z) : jsstring :=
  match sc with
  | Some n => Number_toString n
  | None => lit "undefined"
  end.

(** [res.statusCode && res.statusCode >= 200 && res.statusCode < 300]. *)
Definition status_ok (sc : option Z) : bool :=
  match sc with
  | Some n => negb (n =? 0) && (200 <=? n) && (n <? 300)
  | None => false
  end.

(** The signer of the specification: base64 of the HMAC-SHA256, keyed by
    the secret, of timestamp, ":" and the body bytes. *)
Definition spec_sign (rt : Runtime) (secret : jsstring)
           (body_bytes : list Byte.byte) (ts : jsstring) : jsstring :=
  base64 rt
    (hmac_sha256 rt (Utf8.encode secret)
       (Utf8.encode ts ++ Utf8.encode (lit ":") ++ body_bytes)).

Section Sender.

(** The payload type of a revision and its [JSON.stringify]. *)
Variable Payload : Type.
Variable JSON_stringify : Payload -> jsstring.
Variable rt : Runtime.
Variable env : ProcessEnv.

(** What an invocation does that can be observed: calls of
    [buildWebhookPayload] and requests handed to the transport. *)
Inductive Call :=
| Built (p : Payload)
| Requested (r : Request).

Record World := {
  clock_reads : nat;
  calls : list Call
}.

Definition initial_world : World := {| clock_reads := 0; calls := [] |}.

(** Computations of the handler: they read the clock, record calls and
    may throw. *)
Definition M (A : Type) : Type := World -> Completion A * World.

Definition ret {A} (a : A) : M A := fun w => (Return a, w).

Definition throw {A} (e : JsError) : M A := fun w => (Throw e, w).

Definition bind {A B} (m : M A) (k : A -> M B) : M B :=
  fun w =>
    match m w with
    | (Return a, w') => k a w'
    | (Throw e, w') => (Throw e, w')
    end.

(** [Date.now()] / [new Date()]. *)
Definition Date_now : M Z :=
  fun w => (Return (clock rt (clock_reads w)),
            {| clock_reads := S (clock_reads w); calls := calls w |}).

Definition record (c : Call) : M unit :=
  fun w => (Return tt,
            {| clock_reads := clock_reads w; calls := calls w ++ [c] |}).

(** [https.request(options, ...)], [req.write(payloadString)],
    [req.end()]. *)
Definition request (o : RequestOptions) (data : jsstring) : M TransportResult :=
  let r := {| options := o; body := Utf8.encode data |} in
  bind (record (Requested r)) (fun _ => ret (https_request rt r)).

(** The promise of [sendWebhook]: resolved or rejected by the 'end'
    handler of the response, rejected by the 'error' handler of the
    request. *)
Definition settle (res : TransportResult) : Completion unit :=
  match res with
  | Responded statusCode chunks =>
      let responseBody := List.concat chunks in
      if status_ok statusCode then Return tt
      else Throw (new_Error
                    (lit "Webhook failed with status "
                     ++ statusCode_toString statusCode
                     ++ lit ": " ++ responseBody))
  | Failed error => Throw error
  end.

Definition sendWebhook (payload : Payload) : M unit :=
  let payloadString := JSON_stringify payload in
  bind Date_now (fun now =>
  let timestamp := toISOString rt now in
  let signature :=
    base64 rt
      (hmac_sha256 rt (Utf8.encode (WEBHOOK_SECRET env))
         (Utf8.encode (timestamp ++ lit ":" ++ payloadString))) in
  match parse_URL rt (WEBHOOK_URL env) with
  | None => throw TypeError_invalid_URL
  | Some parsedUrl =>
      let options :=
        {| opt_hostname := hostname parsedUrl;
           opt_port := if truthy (port parsedUrl)
                       then PortString (port parsedUrl)
                       else PortNumber 443;
           opt_path := pathname parsedUrl ++ search parsedUrl;
           opt_method := lit "POST";
           opt_headers :=
             {| Content_Type := lit "application/json";
                Content_Length := Utf8.byteLength payloadString;
                x_amzn_event_timestamp := timestamp;
                x_amzn_event_signature := signature |} |} in
      bind (request options payloadString) (fun res =>
      fun w => (settle res, w))
  end).

(** The requests and the built payloads among the recorded calls. *)
Fixpoint requests (cs : list Call) : list Request :=
  match cs with
  | [] => []
  | Requested r :: cs' => r :: requests cs'
  | Built _ :: cs' => requests cs'
  end.

Fixpoint builds (cs : list Call) : list Payload :=
  match cs with
  | [] => []
  | Built p :: cs' => p :: builds cs'
  | Requested _ :: cs' => builds cs'
  end.

(** An invocation, from a fresh world: how it settles and what it
    called. *)
Definition run {A} (m : M A) : Completion A * list Call :=
  let '(c, w) := m initial_world in (c, calls w).

End Sender.

Arguments Built {Payload} p.
Arguments Requested {Payload} r.
Arguments ret {Payload A} a.
Arguments throw {Payload A} e.
Arguments bind {Payload A B} m k.
Arguments record {Payload} c.
Arguments requests {Payload} cs.
Arguments builds {Payload} cs.
Arguments run {Payload A} m.
Arguments calls {Payload} w.
Arguments clock_reads {Payload} w.

(** [alarmName.replace(/\s+/g, '-')]: every maximal run of white space
    becomes one hyphen; [in_run] tells that the previous character was
    white space. *)
Fixpoint replace_whitespace_runs (in_run : bool) (s : jsstring) : jsstring :=
  match s with
  | [] => []
  | c :: s' =>
      if is_whitespace c
      then if in_run
           then replace_whitespace_runs true s'
           else 45%N :: replace_whitespace_runs true s'
      else c :: replace_whitespace_runs false s'
  end.

Definition normalize_name (alarmName : jsstring) : jsstring :=
  replace_whitespace_runs false alarmName.

End Webhook.

Declare Scope js_scope.
Notation "x <- m ;; k" := (Webhook.bind m (fun x => k))
  (at level 61, m at next level, right associativity) : js_scope.

Local Open Scope js_scope.

(* ================================================================== *)
(** ** The webhook notifier (revision with SERVICE_NAME and metadata)  *)
(* ================================================================== *)

Module Notifier.
Import Webhook.

Record Metadata := {
  region : jsstring;
  environment : jsstring;
  affectedResources : list jsstring;
  alarmName : jsstring;
  alarmArn : jsstring;
  accountId : jsstring
}.

Record DevOpsAgentWebhookPayload := {
  eventType : string;
  incidentId : jsstring;
  action : string;
  priority : string;
  title : jsstring;
  description : jsstring;
  service : jsstring;
  timestamp : jsstring;
  data_metadata : Metadata
}.

(** [const SERVICE_NAME = process.env.SERVICE_NAME || 'DemoDevOpsAgent']. *)
Definition SERVICE_NAME (env : ProcessEnv) : jsstring :=
  or_else (env "SERVICE_NAME"%string) (lit "DemoDevOpsAgent").

Section Handler.

Variable JSON_stringify : DevOpsAgentWebhookPayload -> jsstring.
Variable rt : Runtime.
Variable env : ProcessEnv.

Definition buildWebhookPayload
           (alarmName stateReason timestamp region accountId alarmArn : jsstring)
  : M DevOpsAgentWebhookPayload DevOpsAgentWebhookPayload :=
  now <- Date_now _ rt ;;
  let incidentId :=
    normalize_name alarmName ++ lit "-" ++ Number_toString now in
  let affectedResources := if truthy alarmArn then [alarmArn] else [] in
  let payload :=
    {| eventType := "incident";
       incidentId := incidentId;
       action := "created";
       priority := "HIGH";
       title := lit "[CloudWatch Alarm] " ++ alarmName;
       description := stateReason;
       service := SERVICE_NAME env;
       timestamp := timestamp;
       data_metadata :=
         {| region := region;
            environment := lit "production";
            affectedResources := affectedResources;
            alarmName := alarmName;
            alarmArn := alarmArn;
            accountId := accountId |} |} in
  _ <- record (Built payload) ;;
  ret payload.

Definition handler (event : CloudWatchAlarmEvent)
  : M DevOpsAgentWebhookPayload unit :=
  let alarmName := or_else (alarmData_alarmName event) (lit "Unknown Alarm") in
  let alarmState := or_else (state_value event) (lit "UNKNOWN") in
  let stateReason := or_else (state_reason event) (lit "No reason provided") in
  timestamp <-
    (match state_timestamp event with
     | Some t =>
         if truthy t then ret t
         else now <- Date_now _ rt ;; ret (toISOString rt now)
     | None => now <- Date_now _ rt ;; ret (toISOString rt now)
     end) ;;
  let accountId := or_else (Webhook.accountId event) (lit "unknown") in
  let region := or_else (Webhook.region event) (lit "us-east-1") in
  let alarmArn := or_else (Webhook.alarmArn event) (lit "") in
  if negb (str_eqb alarmState (lit "ALARM")) then ret tt
  else if negb (WEBHOOK_ENABLED env) then
    dryRunPayload <- buildWebhookPayload alarmName stateReason timestamp
                                         region accountId alarmArn ;;
    ret tt
  else if negb (truthy (WEBHOOK_URL env)) then
    throw (new_Error (lit "WEBHOOK_URL is required when WEBHOOK_ENABLED=true"))
  else if negb (truthy (WEBHOOK_SECRET env)) then
    throw (new_Error (lit "WEBHOOK_SECRET is required when WEBHOOK_ENABLED=true"))
  else
    payload <- buildWebhookPayload alarmName stateReason timestamp
                                   region accountId alarmArn ;;
    sendWebhook _ JSON_stringify rt env payload.

End Handler.

End Notifier.

(* ================================================================== *)
(** ** The webhook notifier (revision with the configured resource ARNs) *)
(* ================================================================== *)

Module NotifierArns.
Import Webhook.

Record DevOpsAgentWebhookPayload := {
  eventType : string;
  incidentId : jsstring;
  action : string;
  priority : string;
  title : jsstring;
  description : jsstring;
  timestamp : jsstring;
  affectedResources : list jsstring
}.

Definition WRITER_LAMBDA_ARN (env : ProcessEnv) : jsstring :=
  or_else (env "WRITER_LAMBDA_ARN"%string) (lit "").

Definition DYNAMODB_TABLE_ARN (env : ProcessEnv) : jsstring :=
  or_else (env "DYNAMODB_TABLE_ARN"%string) (lit "").

Section Handler.

Variable JSON_stringify : DevOpsAgentWebhookPayload -> jsstring.
Variable rt : Runtime.
Variable env : ProcessEnv.

Definition buildWebhookPayload (alarmName stateReason timestamp : jsstring)
  : M DevOpsAgentWebhookPayload DevOpsAgentWebhookPayload :=
  now <- Date_now _ rt ;;
  let incidentId := alarmName ++ lit "-" ++ Number_toString now in
  let affectedResources :=
    (if truthy (WRITER_LAMBDA_ARN env) then [WRITER_LAMBDA_ARN env] else [])
    ++ (if truthy (DYNAMODB_TABLE_ARN env) then [DYNAMODB_TABLE_ARN env] else []) in
  let payload :=
    {| eventType := "incident";
       incidentId := incidentId;
       action := "created";
       priority := "HIGH";
       title := alarmName;
       description := stateReason;
       timestamp := timestamp;
       affectedResources := affectedResources |} in
  _ <- record (Built payload) ;;
  ret payload.

Definition handler (event : CloudWatchAlarmEvent)
  : M DevOpsAgentWebhookPayload unit :=
  let alarmName := or_else (alarmData_alarmName event) (lit "Unknown Alarm") in
  let alarmState := or_else (state_value event) (lit "UNKNOWN") in
  let stateReason := or_else (state_reason event) (lit "No reason provided") in
  timestamp <-
    (match state_timestamp event with
     | Some t =>
         if truthy t then ret t
         else now <- Date_now _ rt ;; ret (toISOString rt now)
     | None => now <- Date_now _ rt ;; ret (toISOString rt now)
     end) ;;
  if negb (str_eqb alarmState (lit "ALARM")) then ret tt
  else if negb (WEBHOOK_ENABLED env) then
    dryRunPayload <- buildWebhookPayload alarmName stateReason timestamp ;;
    ret tt
  else if negb (truthy (WEBHOOK_URL env)) then
    throw (new_Error (lit "WEBHOOK_URL is required when WEBHOOK_ENABLED=true"))
  else if negb (truthy (WEBHOOK_SECRET env)) then
    throw (new_Error (lit "WEBHOOK_SECRET is required when WEBHOOK_ENABLED=true"))
  else
    payload <- buildWebhookPayload alarmName stateReason timestamp ;;
    sendWebhook _ JSON_stringify rt env payload.

End Handler.

End NotifierArns.

(* ================================================================== *)
(** ** Stub runtimes and sample events                                 *)
(* ================================================================== *)

Module Samples.
Import Webhook.

Definition env_of (enabled url secret : string) : ProcessEnv :=
  fun k =>
    if String.eqb k "WEBHOOK_ENABLED" then Some (lit enabled)
    else if String.eqb k "WEBHOOK_URL" then Some (lit url)
    else if String.eqb k "WEBHOOK_SECRET" then Some (lit secret)
    else None.

Definition example_url : URL :=
  {| hostname := lit "example.test"; port := lit "";
     pathname := lit "/hook"; search := lit "" |}.

(** A transport stub answering every request with the given status. *)
Definition stub_runtime (status : Z) : Runtime :=
  {| clock := fun k => 1704067200000 + Z.of_nat k;
     toISOString := fun ms => lit "T" ++ Number_toString ms ++ lit "Z";
     hmac_sha256 := fun key msg => key ++ msg;
     base64 := fun bs => map Byte.to_N bs;
     parse_URL := fun u => if truthy u then Some example_url else None;
     https_request := fun _ => Responded (Some status) [lit "response"] |}.

Definition event_with_state (name st : string) : CloudWatchAlarmEvent :=
  {| alarmArn := Some (lit "arn:aws:cloudwatch:us-east-1:123456789012:alarm:demo");
     accountId := Some (lit "123456789012");
     region := Some (lit "us-east-1");
     alarmData :=
       Some {| alarmName := Some (lit name);
               state := Some {| value := Some (lit st);
                                reason := Some (lit "Threshold Crossed");
                                timestamp := Some (lit "2024-01-01T00:00:00Z") |} |} |}.

Definition alarm_event : CloudWatchAlarmEvent :=
  event_with_state "demo-devops-agent-dynamodb-write-throttle" "ALARM".

Definition ok_event : CloudWatchAlarmEvent :=
  event_with_state "demo-devops-agent-dynamodb-write-throttle" "OK".

Definition empty_event : CloudWatchAlarmEvent :=
  {| alarmArn := None; accountId := None; region := None; alarmData := None |}.

(** Stand-ins for [JSON.stringify] on the two payload types. *)
Definition stringify (p : Notifier.DevOpsAgentWebhookPayload) : jsstring :=
  lit "{" ++ Notifier.incidentId p ++ lit "}".

Definition stringify_arns (p : NotifierArns.DevOpsAgentWebhookPayload) : jsstring :=
  lit "{" ++ NotifierArns.incidentId p ++ lit "}".

End Samples.

(* ================================================================== *)
(** ** Collapsing white space, as the specification words it           *)
(* ================================================================== *)

Module NameSpec.

(** The longest white-space prefix of a string and what follows it. *)
Fixpoint leading_whitespace (s : jsstring) : jsstring :=
  match s with
  | c :: s' => if is_whitespace c then c :: leading_whitespace s' else []
  | [] => []
  end.

Fixpoint after_whitespace (s : jsstring) : jsstring :=
  match s with
  | c :: s' => if is_whitespace c then after_whitespace s' else s
  | [] => []
  end.

Definition starts_without_whitespace (s : jsstring) : Prop :=
  match s with
  | [] => True
  | c :: _ => is_whitespace c = false
  end.

(** [collapsed s t]: [t] is [s] with every maximal run of white space
    replaced by a single hyphen and every other character kept. *)
Inductive collapsed : jsstring -> jsstring -> Prop :=
| collapsed_nil : collapsed [] []
| collapsed_keep c s t :
    is_whitespace c = false ->
    collapsed s t -> collapsed (c :: s) (c :: t)
| collapsed_run r s t :
    r <> [] ->
    Forall (fun c => is_whitespace c = true) r ->
    starts_without_whitespace s ->
    collapsed s t -> collapsed (r ++ s) (45%N :: t).

Definition whitespace_free (s : jsstring) : Prop :=
  Forall (fun c => is_whitespace c = false) s.

End NameSpec.

(* ================================================================== *)
(** ** The paths through a notifier invocation                         *)
(* ================================================================== *)

Module Paths.
Import Webhook.

(** The five ways an invocation can go. *)
Inductive Path (Payload : Type) (JSON_stringify : Payload -> jsstring)
          (rt : Runtime) (env : ProcessEnv) (event : CloudWatchAlarmEvent)
  : Completion unit * list (Call Payload) -> Prop :=
| path_skip :
    str_eqb (alarmState event) (lit "ALARM") = false ->
    Path Payload JSON_stringify rt env event (Return tt, [])
| path_dry_run p :
    str_eqb (alarmState event) (lit "ALARM") = true ->
    WEBHOOK_ENABLED env = false ->
    Path Payload JSON_stringify rt env event (Return tt, [Built p])
| path_no_url :
    str_eqb (alarmState event) (lit "ALARM") = true ->
    WEBHOOK_ENABLED env = true ->
    truthy (WEBHOOK_URL env) = false ->
    Path Payload JSON_stringify rt env event
      (Throw (new_Error (lit "WEBHOOK_URL is required when WEBHOOK_ENABLED=true")), [])
| path_no_secret :
    str_eqb (alarmState event) (lit "ALARM") = true ->
    WEBHOOK_ENABLED env = true ->
    truthy (WEBHOOK_URL env) = true ->
    truthy (WEBHOOK_SECRET env) = false ->
    Path Payload JSON_stringify rt env event
      (Throw (new_Error (lit "WEBHOOK_SECRET is required when WEBHOOK_ENABLED=true")), [])
| path_send p w :
    str_eqb (alarmState event) (lit "ALARM") = true ->
    WEBHOOK_ENABLED env = true ->
    truthy (WEBHOOK_URL env) = true ->
    truthy (WEBHOOK_SECRET env) = true ->
    calls w = [Built p] ->
    Path Payload JSON_stringify rt env event
      (fst (sendWebhook Payload JSON_stringify rt env p w),
       calls (snd (sendWebhook Payload JSON_stringify rt env p w))).

(** A request is signed when its signature header is the signer's output
    for the secret, the bytes of its body and its timestamp header. *)
Definition signed (rt : Runtime) (env : ProcessEnv) (req : Request) : Prop :=
  x_amzn_event_signature (opt_headers (options req))
  = spec_sign rt (WEBHOOK_SECRET env) (body req)
      (x_amzn_event_timestamp (opt_headers (options req))).

(** The two configuration errors. *)
Definition configuration_error (e : JsError) : Prop :=
  e = new_Error (lit "WEBHOOK_URL is required when WEBHOOK_ENABLED=true")
  \/ e = new_Error (lit "WEBHOOK_SECRET is required when WEBHOOK_ENABLED=true").

(** A status code in the range [200, 300). *)
Definition success_status (sc : option Z) : Prop :=
  exists n, sc = Some n /\ 200 <= n < 300.

End Paths.

(** A correctly configured sample invocation and the request it sends. *)
Module SampleRuns.
Import Webhook.

Definition sample_env : ProcessEnv :=
  Samples.env_of "true" "https://example.test/hook" "s3cr3t".

Definition sample_request : Request :=
  match snd (run (Notifier.handler Samples.stringify (Samples.stub_runtime 200)
                    sample_env Samples.alarm_event)) with
  | [_; Requested r] => r
  | _ => {| options :=
              {| opt_hostname := []; opt_port := PortNumber 443;
                 opt_path := []; opt_method := [];
                 opt_headers :=
                   {| Content_Type := []; Content_Length := 0;
                      x_amzn_event_timestamp := [];
                      x_amzn_event_signature := [] |} |};
            body := [] |}
  end.

End SampleRuns.

(* ================================================================== *)
(** ** lambda/writer.ts: the items written                             *)
(* ================================================================== *)

Module WriterItems.
Import Writer.

(** [String.prototype.padStart(targetLength, padString)]: the pad string
    is repeated and cut to the missing length; an empty pad string or a
    string that is long enough leaves the string as it is. *)
Definition padStart (s : jsstring) (targetLength : nat) (padString : jsstring)
  : jsstring :=
  let fillLen := (targetLength - List.length s)%nat in
  match padString with
  | [] => s
  | _ :: _ => firstn fillLen (List.concat (repeat padString fillLen)) ++ s
  end.

(** [String.prototype.repeat(count)]. *)
Definition String_repeat (s : jsstring) (count : nat) : jsstring :=
  List.concat (repeat s count).

(** A DynamoDB attribute value: [{ S: ... }] or [{ N: ... }]. *)
Inductive AttributeValue :=
| AttrS (s : jsstring)
| AttrN (s : jsstring).

Record Item := {
  pk : AttributeValue;
  sk : AttributeValue;
  data : AttributeValue;
  timestamp : AttributeValue;
  batchId : AttributeValue;
  itemIndex : AttributeValue
}.

Record PutItemCommand := {
  TableName : option jsstring;
  Item_ : Item
}.

(** What the writer takes from the runtime: [Date.now()] when the batch
    starts, and for the callback of index [i] the value of
    [new Date().toISOString()] and of [randomId()]
    ([Math.random().toString(36).substring(2, 15)]). *)
Record WriterRuntime := {
  TABLE_NAME : option jsstring;
  batch_now : Z;
  item_iso_time : nat -> jsstring;
  randomId : nat -> jsstring
}.

(** [`batch-${Date.now()}`]. *)
Definition batch_id (rt : WriterRuntime) : jsstring :=
  lit "batch-" ++ Number_toString (batch_now rt).

(** [i.toString().padStart(4, '0')]. *)
Definition padded_index (i : nat) : jsstring :=
  padStart (Number_toString (Z.of_nat i)) 4 (lit "0").

(** [`item-${i.toString().padStart(4, '0')}-${randomId()}`]. *)
Definition sort_key (rt : WriterRuntime) (i : nat) : jsstring :=
  lit "item-" ++ padded_index i ++ lit "-" ++ randomId rt i.

(** The item built by the callback of index [i]. *)
Definition item (rt : WriterRuntime) (i : nat) : Item :=
  {| pk := AttrS (batch_id rt);
     sk := AttrS (sort_key rt i);
     data := AttrS (String_repeat (lit "x") 900);
     timestamp := AttrS (item_iso_time rt i);
     batchId := AttrS (batch_id rt);
     itemIndex := AttrN (Number_toString (Z.of_nat i)) |}.

(** The commands handed to [client.send], in the order of the callbacks;
    [None] when the array of promises cannot be created. *)
Definition commands (rt : WriterRuntime) (WRITE_COUNT : jsnum)
  : option (list PutItemCommand) :=
  match dispatched WRITE_COUNT with
  | None => None
  | Some idx =>
      Some (map (fun i => {| TableName := TABLE_NAME rt; Item_ := item rt i |})
                idx)
  end.

Definition attr_string (a : AttributeValue) : jsstring :=
  match a with
  | AttrS s => s
  | AttrN s => s
  end.

(** [a < b] on strings: code unit by code unit. *)
Fixpoint str_ltb (a b : jsstring) : bool :=
  match a, b with
  | _, [] => false
  | [], _ :: _ => true
  | x :: a', y :: b' =>
      if (x <? y)%N then true
      else if (y <? x)%N then false
      else str_ltb a' b'
  end.

(** A text at which reading a number stops: the end of the string or a
    character that is not a decimal digit. *)
Definition stops (rest : jsstring) : Prop :=
  match rest with
  | [] => True
  | c :: _ => is_digit c = false
  end.

(** The number a string of decimal digits denotes. *)
Definition digit_step (acc : Z) (c : N) : Z := 10 * acc + Z.of_N (c - 48).

Definition digits_value (s : jsstring) : Z := fold_left digit_step s 0.

(** The per-outcome counts of a batch. *)
Definition count_outcomes (p : PutOutcome -> bool)
           (store : nat -> PutOutcome) (idx : list nat) : Z :=
  Z.of_nat (List.length (filter (fun i => p (store i)) idx)).

Definition is_fulfilled (o : PutOutcome) : bool :=
  match o with
  | Fulfilled => true
  | Rejected _ => false
  end.

Definition is_throttled (o : PutOutcome) : bool :=
  match o with
  | Fulfilled => false
  | Rejected err => is_throttle err
  end.

Definition is_other_error (o : PutOutcome) : bool :=
  match o with
  | Fulfilled => false
  | Rejected err => negb (is_throttle err)
  end.

(** A sample runtime. *)
Definition sample_writer_runtime : WriterRuntime :=
  {| TABLE_NAME := Some (lit "demo-devops-agent-table");
     batch_now := 1704067200000;
     item_iso_time := fun _ => lit "2024-01-01T00:00:00.000Z";
     randomId := fun i => lit "k3j9x" ++ Number_toString (Z.of_nat i) |}.

End WriterItems.

(* ================================================================== *)
(** ** The notifier: what an invocation builds and sends               *)
(* ================================================================== *)

Module Traces.
Import Webhook.

(** The time stamp the handler passes on and the number of clock readings
    it has taken for it:
    [event.alarmData?.state?.timestamp || new Date().toISOString()]. *)
Definition event_time (rt : Runtime) (event : CloudWatchAlarmEvent)
  : jsstring * nat :=
  match state_timestamp event with
  | Some t =>
      if truthy t then (t, 0%nat) else (toISOString rt (clock rt 0), 1%nat)
  | None => (toISOString rt (clock rt 0), 1%nat)
  end.

(** [const alarmName = event.alarmData?.alarmName || 'Unknown Alarm'] and
    [const stateReason = ... || 'No reason provided']. *)
Definition event_alarmName (event : CloudWatchAlarmEvent) : jsstring :=
  or_else (alarmData_alarmName event) (lit "Unknown Alarm").

Definition event_stateReason (event : CloudWatchAlarmEvent) : jsstring :=
  or_else (state_reason event) (lit "No reason provided").

(** The call of [buildWebhookPayload] each handler makes. *)
Definition handler_build (rt : Runtime) (env : ProcessEnv)
           (event : CloudWatchAlarmEvent) (timestamp : jsstring)
  : M Notifier.DevOpsAgentWebhookPayload Notifier.DevOpsAgentWebhookPayload :=
  Notifier.buildWebhookPayload rt env
    (event_alarmName event) (event_stateReason event) timestamp
    (or_else (region event) (lit "us-east-1"))
    (or_else (accountId event) (lit "unknown"))
    (or_else (alarmArn event) (lit "")).

Definition handler_arns_build (rt : Runtime) (env : ProcessEnv)
           (event : CloudWatchAlarmEvent) (timestamp : jsstring)
  : M NotifierArns.DevOpsAgentWebhookPayload
      NotifierArns.DevOpsAgentWebhookPayload :=
  NotifierArns.buildWebhookPayload rt env
    (event_alarmName event) (event_stateReason event) timestamp.

(** The ways an invocation can go, with the payload it builds: [build] is
    the handler's call of the builder, made after [k] clock readings. *)
Inductive Trace (Payload : Type) (JSON_stringify : Payload -> jsstring)
          (rt : Runtime) (env : ProcessEnv)
          (build : jsstring -> M Payload Payload)
          (event : CloudWatchAlarmEvent)
  : Completion unit * list (Call Payload) -> Prop :=
| trace_skip :
    alarmState event <> lit "ALARM" ->
    Trace Payload JSON_stringify rt env build event (Return tt, [])
| trace_dry_run ts k p :
    alarmState event = lit "ALARM" ->
    WEBHOOK_ENABLED env = false ->
    event_time rt event = (ts, k) ->
    build ts {| clock_reads := k; calls := [] |}
    = (Return p, {| clock_reads := S k; calls := [Built p] |}) ->
    Trace Payload JSON_stringify rt env build event (Return tt, [Built p])
| trace_no_url :
    alarmState event = lit "ALARM" ->
    WEBHOOK_ENABLED env = true ->
    WEBHOOK_URL env = [] ->
    Trace Payload JSON_stringify rt env build event
      (Throw (new_Error (lit "WEBHOOK_URL is required when WEBHOOK_ENABLED=true")), [])
| trace_no_secret :
    alarmState event = lit "ALARM" ->
    WEBHOOK_ENABLED env = true ->
    WEBHOOK_URL env <> [] ->
    WEBHOOK_SECRET env = [] ->
    Trace Payload JSON_stringify rt env build event
      (Throw (new_Error (lit "WEBHOOK_SECRET is required when WEBHOOK_ENABLED=true")), [])
| trace_send ts k p :
    alarmState event = lit "ALARM" ->
    WEBHOOK_ENABLED env = true ->
    WEBHOOK_URL env <> [] ->
    WEBHOOK_SECRET env <> [] ->
    event_time rt event = (ts, k) ->
    build ts {| clock_reads := k; calls := [] |}
    = (Return p, {| clock_reads := S k; calls := [Built p] |}) ->
    Trace Payload JSON_stringify rt env build event
      (fst (sendWebhook Payload JSON_stringify rt env p
              {| clock_reads := S k; calls := [Built p] |}),
       calls (snd (sendWebhook Payload JSON_stringify rt env p
                     {| clock_reads := S k; calls := [Built p] |}))).

(** The destination of a request, read from the parsed URL. *)
Definition addressed_to (u : URL) (req : Request) : Prop :=
  opt_hostname (options req) = hostname u /\
  opt_port (options req)
  = (if truthy (port u) then PortString (port u) else PortNumber 443) /\
  opt_path (options req) = pathname u ++ search u.

(** An environment in which only WEBHOOK_ENABLED is set. *)
Definition env_enabled_as (v : string) : ProcessEnv :=
  fun k => if String.eqb k "WEBHOOK_ENABLED" then Some (lit v) else None.

(** A runtime whose URL parser rejects every URL. *)
Definition rejecting_runtime : Runtime :=
  {| clock := clock (Samples.stub_runtime 200);
     toISOString := toISOString (Samples.stub_runtime 200);
     hmac_sha256 := hmac_sha256 (Samples.stub_runtime 200);
     base64 := base64 (Samples.stub_runtime 200);
     parse_URL := fun _ => None;
     https_request := https_request (Samples.stub_runtime 200) |}.

(** An event in state "ALARM" that carries nothing else. *)
Definition empty_alarm_event : CloudWatchAlarmEvent :=
  {| alarmArn := None; accountId := None; region := None;
     alarmData :=
       Some {| alarmName := None;
               state := Some {| value := Some (lit "ALARM");
                                reason := None;
                                timestamp := None |} |} |}.

End Traces.
(* ================================================================== *)
(** ** Facts about strings                                             *)
(* ================================================================== *)

Section StringFacts.

Lemma startsWith_app (sub post : jsstring) :
  startsWith (sub ++ post) sub = true.
Proof.
  induction sub as [|c sub IH]; simpl.
  - reflexivity.
  - now rewrite N.eqb_refl, IH.
Qed.

Lemma startsWith_weaken (s sub post : jsstring) :
  startsWith s sub = true -> startsWith (s ++ post) sub = true.
Proof.
  revert s; induction sub as [|c sub IH]; intros s H.
  - reflexivity.
  - destruct s as [|d s]; simpl in *; [discriminate|].
    apply andb_true_iff in H as [H1 H2].
    now rewrite H1, (IH _ H2).
Qed.

Lemma includes_here (s sub : jsstring) :
  startsWith s sub = true -> includes s sub = true.
Proof. intros H. destruct s; simpl in *; now rewrite H. Qed.

Lemma includes_app_r (pre s sub : jsstring) :
  includes s sub = true -> includes (pre ++ s) sub = true.
Proof.
  intros H. induction pre as [|c pre IH]; simpl; [exact H|].
  rewrite IH. apply orb_true_r.
Qed.

Lemma includes_app_l (s post sub : jsstring) :
  includes s sub = true -> includes (s ++ post) sub = true.
Proof.
  induction s as [|c s IH]; intros H.
  - simpl in H. rewrite orb_false_r in H.
    destruct sub; [|discriminate]. now apply includes_here.
  - cbn [includes] in H. apply orb_true_iff in H as [H|H].
    + apply includes_here. now apply (startsWith_weaken (c :: s)).
    + change ((c :: s) ++ post) with (c :: (s ++ post)).
      cbn [includes]. rewrite (IH H). apply orb_true_r.
Qed.

Lemma includes_infix (pre sub post : jsstring) :
  includes (pre ++ sub ++ post) sub = true.
Proof.
  apply includes_app_r, includes_here, startsWith_app.
Qed.

Lemma str_eqb_eq (a b : jsstring) : str_eqb a b = true <-> a = b.
Proof.
  revert b; induction a as [|x a IH]; intros [|y b]; simpl;
    try (split; [discriminate|discriminate]); try tauto.
  rewrite andb_true_iff, N.eqb_eq, IH. split.
  - now intros [-> ->].
  - intros E; injection E; auto.
Qed.

Lemma str_eqb_refl (a : jsstring) : str_eqb a a = true.
Proof. now apply str_eqb_eq. Qed.

End StringFacts.

(* ================================================================== *)
(** ** The writer: tallying                                            *)
(* ================================================================== *)

Module WriterFacts.
Import Writer.

(** One settled attempt moves exactly one counter, by one. *)
Lemma settle_exactly_one (o : PutOutcome) (r : WriteResult) :
  totalAttempts (settle o r) = totalAttempts r /\
  ( (success (settle o r) = success r + 1 /\
     throttled (settle o r) = throttled r /\ errors (settle o r) = errors r)
 \/ (success (settle o r) = success r /\
     throttled (settle o r) = throttled r + 1 /\ errors (settle o r) = errors r)
 \/ (success (settle o r) = success r /\
     throttled (settle o r) = throttled r /\ errors (settle o r) = errors r + 1)).
Proof.
  destruct o as [|err]; simpl.
  - auto.
  - destruct (is_throttle err); simpl; auto 6.
Qed.

Lemma settle_all_total store order r :
  totalAttempts (settle_all store order r) = totalAttempts r.
Proof.
  revert r; induction order as [|i order IH]; intros r.
  - reflexivity.
  - change (settle_all store (i :: order) r)
      with (settle_all store order (settle (store i) r)).
    rewrite IH. apply (settle_exactly_one (store i) r).
Qed.

Lemma settle_all_sum store order r :
  success (settle_all store order r) + throttled (settle_all store order r)
  + errors (settle_all store order r)
  = success r + throttled r + errors r + Z.of_nat (List.length order).
Proof.
  revert r; induction order as [|i order IH]; intros r.
  - simpl. lia.
  - change (settle_all store (i :: order) r)
      with (settle_all store order (settle (store i) r)).
    rewrite IH.
    destruct (settle_exactly_one (store i) r) as [_ [H|[H|H]]];
      destruct H as (-> & -> & ->); simpl List.length; lia.
Qed.

Lemma settle_all_throttled store order r :
  throttled (settle_all store order r)
  = throttled r + count_throttled store order.
Proof.
  revert r; induction order as [|i order IH]; intros r.
  - unfold count_throttled. simpl. lia.
  - change (settle_all store (i :: order) r)
      with (settle_all store order (settle (store i) r)).
    rewrite IH. unfold count_throttled. simpl filter.
    destruct (store i) as [|err]; simpl.
    + lia.
    + destruct (is_throttle err); simpl List.length; simpl; lia.
Qed.

Lemma settle_all_nonneg store order r :
  0 <= success r -> 0 <= throttled r -> 0 <= errors r ->
  0 <= success (settle_all store order r) /\
  0 <= throttled (settle_all store order r) /\
  0 <= errors (settle_all store order r).
Proof.
  revert r; induction order as [|i order IH]; intros r Hs Ht He.
  - simpl. auto.
  - change (settle_all store (i :: order) r)
      with (settle_all store order (settle (store i) r)).
    destruct (settle_exactly_one (store i) r) as [_ [H|[H|H]]];
      destruct H as (E1 & E2 & E3); apply IH; lia.
Qed.

(** Two attempts may settle in either order. *)
Lemma settle_comm (o1 o2 : PutOutcome) (r : WriteResult) :
  settle o1 (settle o2 r) = settle o2 (settle o1 r).
Proof.
  destruct o1 as [|e1], o2 as [|e2]; simpl;
    repeat match goal with
           | |- context [is_throttle ?e] => destruct (is_throttle e)
           end; simpl; reflexivity.
Qed.

(** The tally does not depend on the order in which the attempts settle. *)
Lemma settle_all_order_irrelevant store (o1 o2 : list nat) :
  Permutation o1 o2 ->
  forall r, settle_all store o1 r = settle_all store o2 r.
Proof.
  induction 1 as [|i l l' _ IH|i j l|l l' l'' _ IH1 _ IH2]; intros r.
  - reflexivity.
  - simpl. apply IH.
  - simpl. now rewrite settle_comm.
  - now rewrite IH1.
Qed.

Lemma ToLength_in_range (n : Z) :
  0 <= n <= MAX_ARRAY_LENGTH -> ToLength (Num n) = n.
Proof. unfold MAX_ARRAY_LENGTH, ToLength. lia. Qed.

Lemma dispatchable_dispatched WRITE_COUNT :
  dispatchable WRITE_COUNT ->
  dispatched WRITE_COUNT = Some (seq 0 (Z.to_nat (ToLength WRITE_COUNT))).
Proof.
  unfold dispatchable, dispatched, Array_from_length. intros H.
  destruct (Z.leb_spec (ToLength WRITE_COUNT) MAX_ARRAY_LENGTH); [reflexivity|lia].
Qed.

Lemma throttle_message_mentions (r : WriteResult) :
  includes (throttle_message r) (lit "throttled") = true /\
  includes (throttle_message r)
    (Number_toString (throttled r) ++ lit "/"
     ++ jsnum_toString (totalAttempts r)) = true.
Proof.
  unfold throttle_message. split.
  - rewrite !app_assoc. apply includes_app_r. reflexivity.
  - rewrite (app_assoc (Number_toString _) (lit "/") _).
    rewrite (app_assoc (Number_toString _ ++ lit "/") _ _).
    rewrite <- (app_assoc (Number_toString _) (lit "/") _).
    apply includes_infix.
Qed.

End WriterFacts.

(* ================================================================== *)
(** ** The writer: what an invocation reports                          *)
(* ================================================================== *)

Module WriterSpec.
Import Writer WriterSamples WriterFacts.

Lemma handler_cases WRITE_COUNT store results :
  aggregate WRITE_COUNT store = Some results ->
  (0 < throttled results /\
   handler WRITE_COUNT store = Throw (new_Error (throttle_message results)))
  \/ (throttled results <= 0 /\ handler WRITE_COUNT store = Return results).
Proof.
  intros H. unfold handler. rewrite H.
  destruct (Z.ltb_spec 0 (throttled results)); [left|right]; auto.
Qed.

(** C1.  A batch that can be dispatched fails exactly when at least one
    attempt was throttled; the error message then contains "throttled"
    and the counts in the form throttled/attempted; with no throttled
    attempt the aggregated result is returned, whatever the number of
    other errors. *)
Theorem handler_fails_iff_throttled
        (WRITE_COUNT : jsnum) (store : nat -> PutOutcome) :
  dispatchable WRITE_COUNT ->
  exists idx results,
    dispatched WRITE_COUNT = Some idx /\
    aggregate WRITE_COUNT store = Some results /\
    throttled results = count_throttled store idx /\
    totalAttempts results = WRITE_COUNT /\
    ((exists e, handler WRITE_COUNT store = Throw e) <-> 0 < throttled results) /\
    (forall e, handler WRITE_COUNT store = Throw e ->
       includes (message e) (lit "throttled") = true /\
       includes (message e)
         (Number_toString (throttled results) ++ lit "/"
          ++ jsnum_toString WRITE_COUNT) = true) /\
    (throttled results = 0 -> handler WRITE_COUNT store = Return results).
Proof.
  intros Hd. pose proof (dispatchable_dispatched _ Hd) as Hidx.
  set (idx := seq 0 (Z.to_nat (ToLength WRITE_COUNT))) in *.
  set (results := settle_all store idx (initial_results WRITE_COUNT)).
  assert (Hagg : aggregate WRITE_COUNT store = Some results).
  { unfold aggregate. now rewrite Hidx. }
  assert (Htot : totalAttempts results = WRITE_COUNT).
  { unfold results. now rewrite settle_all_total. }
  exists idx, results. repeat split; auto.
  - unfold results. rewrite settle_all_throttled. simpl. lia.
  - intros [e He].
    destruct (handler_cases _ _ _ Hagg) as [[Ht _]|[_ Hr]]; [exact Ht|].
    rewrite Hr in He. discriminate.
  - intros Ht. destruct (handler_cases _ _ _ Hagg) as [[_ Hr]|[Hle _]]; [|lia].
    eexists; exact Hr.
  - destruct (handler_cases _ _ _ Hagg) as [[_ Hr]|[_ Hr]];
      rewrite Hr in H; [|discriminate].
    injection H as <-. apply throttle_message_mentions.
  - destruct (handler_cases _ _ _ Hagg) as [[_ Hr]|[_ Hr]];
      rewrite Hr in H; [|discriminate].
    injection H as <-. simpl message. rewrite <- Htot.
    apply throttle_message_mentions.
  - intros Ht. destruct (handler_cases _ _ _ Hagg) as [[Hlt _]|[_ Hr]]; [lia|exact Hr].
Qed.

Lemma handler_fails_iff_throttled_witness :
  dispatchable (Num 50) /\
  exists idx results,
    dispatched (Num 50) = Some idx /\
    aggregate (Num 50) store_throttling_from_40 = Some results /\
    throttled results = count_throttled store_throttling_from_40 idx /\
    totalAttempts results = Num 50 /\
    ((exists e, handler (Num 50) store_throttling_from_40 = Throw e)
     <-> 0 < throttled results) /\
    (forall e, handler (Num 50) store_throttling_from_40 = Throw e ->
       includes (message e) (lit "throttled") = true /\
       includes (message e)
         (Number_toString (throttled results) ++ lit "/"
          ++ jsnum_toString (Num 50)) = true) /\
    (throttled results = 0 ->
     handler (Num 50) store_throttling_from_40 = Return results).
Proof.
  assert (H : dispatchable (Num 50)) by (unfold dispatchable, MAX_ARRAY_LENGTH, ToLength in *; lia).
  split; [exact H|].
  exact (handler_fails_iff_throttled (Num 50) store_throttling_from_40 H).
Defined.

(** The three batch examples of the specification. *)
Example batch_never_throttled :
  handler (Num 50) store_always_ok
  = Return {| success := 50; throttled := 0; errors := 0;
              totalAttempts := Num 50 |}.
Proof. vm_compute. reflexivity. Qed.

Example batch_partly_throttled :
  aggregate (Num 50) store_throttling_from_40
  = Some {| success := 40; throttled := 10; errors := 0;
            totalAttempts := Num 50 |} /\
  exists e, handler (Num 50) store_throttling_from_40 = Throw e /\
            includes (message e) (lit "10/50") = true.
Proof. split; [vm_compute; reflexivity|]. eexists; split; vm_compute; reflexivity. Qed.

Example batch_other_errors_only :
  handler (Num 50) store_always_failing
  = Return {| success := 0; throttled := 0; errors := 50;
              totalAttempts := Num 50 |}.
Proof. vm_compute. reflexivity. Qed.

(** With a store that always reports exceeded capacity every attempt is
    tallied as throttled and the invocation fails with the counts n/n. *)
Lemma always_throttling (n : Z) :
  0 < n <= MAX_ARRAY_LENGTH ->
  exists results e,
    aggregate (Num n) store_always_throttling = Some results /\
    throttled results = n /\
    handler (Num n) store_always_throttling = Throw e /\
    includes (message e)
      (Number_toString n ++ lit "/" ++ Number_toString n) = true.
Proof.
  intros Hn.
  assert (Hd : dispatchable (Num n)) by (unfold dispatchable, MAX_ARRAY_LENGTH, ToLength in *; lia).
  pose proof (dispatchable_dispatched _ Hd) as Hidx.
  set (idx := seq 0 (Z.to_nat (ToLength (Num n)))) in *.
  set (results := settle_all store_always_throttling idx (initial_results (Num n))).
  assert (Hagg : aggregate (Num n) store_always_throttling = Some results).
  { unfold aggregate. now rewrite Hidx. }
  assert (Ht : throttled results = n).
  { unfold results. rewrite settle_all_throttled. unfold count_throttled.
    rewrite forallb_filter_id.
    - unfold idx. rewrite length_seq, ToLength_in_range by lia. simpl. lia.
    - apply forallb_forall. intros; reflexivity. }
  destruct (handler_cases _ _ _ Hagg) as [[_ Hr]|[Hle _]]; [|lia].
  exists results, (new_Error (throttle_message results)).
  repeat split; auto.
  pose proof (throttle_message_mentions results) as [_ Hm].
  unfold results at 3 in Hm. rewrite settle_all_total in Hm.
  rewrite Ht in Hm. exact Hm.
Qed.

(** Whatever the configured batch size, the three counters add up to the
    number of attempts that were dispatched. *)
Lemma tally_counts_dispatched WRITE_COUNT store idx results :
  dispatched WRITE_COUNT = Some idx ->
  aggregate WRITE_COUNT store = Some results ->
  success results + throttled results + errors results
  = Z.of_nat (List.length idx).
Proof.
  intros Hidx Hagg. unfold aggregate in Hagg. rewrite Hidx in Hagg.
  injection Hagg as <-. rewrite settle_all_sum. simpl. lia.
Qed.

(** C2.  For a batch size that is a non-negative integer within the array
    limit, the aggregated result satisfies
    attempted = succeeded + throttled + failed, and every settled attempt
    moves exactly one of the three counters by one. *)
Theorem classification_exhaustive_exclusive (n : Z) (store : nat -> PutOutcome) :
  0 <= n <= MAX_ARRAY_LENGTH ->
  (exists results,
     aggregate (Num n) store = Some results /\
     totalAttempts results
     = Num (success results + throttled results + errors results) /\
     0 <= success results /\ 0 <= throttled results /\ 0 <= errors results) /\
  (forall o r,
     (success (settle o r) = success r + 1 /\
      throttled (settle o r) = throttled r /\ errors (settle o r) = errors r)
  \/ (success (settle o r) = success r /\
      throttled (settle o r) = throttled r + 1 /\ errors (settle o r) = errors r)
  \/ (success (settle o r) = success r /\
      throttled (settle o r) = throttled r /\ errors (settle o r) = errors r + 1)).
Proof.
  intros Hn. split; [|intros o r; apply settle_exactly_one].
  assert (Hd : dispatchable (Num n)) by (unfold dispatchable, MAX_ARRAY_LENGTH, ToLength in *; lia).
  pose proof (dispatchable_dispatched _ Hd) as Hidx.
  set (idx := seq 0 (Z.to_nat (ToLength (Num n)))) in *.
  exists (settle_all store idx (initial_results (Num n))).
  split; [unfold aggregate; now rewrite Hidx|].
  split.
  - rewrite settle_all_total, settle_all_sum. simpl.
    unfold idx. rewrite length_seq, ToLength_in_range by lia. f_equal. lia.
  - apply settle_all_nonneg; simpl; lia.
Qed.

Lemma classification_exhaustive_exclusive_witness :
  0 <= 50 <= MAX_ARRAY_LENGTH /\
  exists results,
    aggregate (Num 50) store_throttling_from_40 = Some results /\
    totalAttempts results
    = Num (success results + throttled results + errors results).
Proof.
  assert (H : 0 <= 50 <= MAX_ARRAY_LENGTH) by (unfold MAX_ARRAY_LENGTH; lia).
  split; [exact H|].
  destruct (classification_exhaustive_exclusive 50 store_throttling_from_40 H)
    as [[results [Ha [Ht _]]] _].
  exists results. split; assumption.
Defined.

(** Outside that range the recorded batch size is the raw configured
    number, while no attempt is dispatched. *)
Example negative_count_dispatches_nothing :
  handler (Num (-3)) store_always_ok
  = Return {| success := 0; throttled := 0; errors := 0;
              totalAttempts := Num (-3) |}.
Proof. reflexivity. Qed.

(** A batch size of zero is read from the environment as zero and the
    invocation returns the all-zero result normally. *)
Lemma zero_count_returns_normally :
  WRITE_COUNT_of_env (Some (lit "0")) = Num 0 /\
  dispatched (Num 0) = Some [] /\
  exists results, handler (Num 0) store_always_ok = Return results.
Proof. repeat split. eexists. reflexivity. Qed.

(** C3 (as the code behaves).  With a batch size of zero no attempt is
    dispatched and the invocation returns the all-zero result as a normal
    success: the batch size is not validated. *)
Theorem zero_count_not_rejected (store : nat -> PutOutcome) :
  dispatched (Num 0) = Some [] /\
  handler (Num 0) store
  = Return {| success := 0; throttled := 0; errors := 0;
              totalAttempts := Num 0 |}.
Proof. split; reflexivity. Qed.

End WriterSpec.

(* ================================================================== *)
(** ** UTF-8 encoding across a concatenation                           *)
(* ================================================================== *)

Module Utf8Facts.
Import Utf8.

Lemma encode_cons (c : N) (rest : jsstring) :
  encode (c :: rest)
  = if is_high_surrogate c then
      match rest with
      | l :: rest' =>
          if is_low_surrogate l
          then encode_code_point
                 (0x10000 + (c - 0xD800) * 0x400 + (l - 0xDC00))%N
               ++ encode rest'
          else replacement ++ encode rest
      | [] => replacement
      end
    else if is_low_surrogate c then replacement ++ encode rest
    else encode_code_point c ++ encode rest.
Proof. reflexivity. Qed.

(** Encoding distributes over a concatenation whose right part does not
    start with a low surrogate: no surrogate pair straddles the seam. *)
Lemma encode_app_seam (a : jsstring) (c : N) (p : jsstring) :
  is_low_surrogate c = false ->
  encode (a ++ c :: p) = encode a ++ encode (c :: p).
Proof.
  intros Hc.
  assert (H : forall n a, (List.length a <= n)%nat ->
              encode (a ++ c :: p) = encode a ++ encode (c :: p)).
  { induction n as [|n IH]; intros [|x a'] Hlen; simpl in Hlen;
      try reflexivity; try lia.
    change ((x :: a') ++ c :: p) with (x :: (a' ++ c :: p)).
    rewrite (encode_cons x (a' ++ c :: p)), (encode_cons x a').
    destruct (is_high_surrogate x).
    - destruct a' as [|y a'']; cbn [app].
      + rewrite Hc. reflexivity.
      + destruct (is_low_surrogate y).
        * rewrite IH by (simpl in Hlen; lia). now rewrite app_assoc.
        * change (y :: a'' ++ c :: p) with ((y :: a'') ++ c :: p).
          rewrite IH by (simpl in *; lia). now rewrite app_assoc.
    - destruct (is_low_surrogate x);
        rewrite IH by lia; now rewrite app_assoc. }
  apply (H (List.length a)). lia.
Qed.

(** The bytes fed to the HMAC are the timestamp bytes, a colon and the
    very bytes of the body. *)
Lemma encode_timestamp_colon_body (ts payloadString : jsstring) :
  encode (ts ++ lit ":" ++ payloadString)
  = encode ts ++ encode (lit ":") ++ encode payloadString.
Proof.
  change (lit ":" ++ payloadString) with (58%N :: payloadString).
  rewrite encode_app_seam by reflexivity.
  rewrite (encode_cons 58 payloadString). reflexivity.
Qed.

End Utf8Facts.

(* ================================================================== *)
(** ** Normalising the alarm name                                      *)
(* ================================================================== *)

Module NameFacts.
Import Webhook NameSpec.

Lemma leading_after (s : jsstring) :
  leading_whitespace s ++ after_whitespace s = s.
Proof.
  induction s as [|c s IH]; simpl; [reflexivity|].
  destruct (is_whitespace c); simpl; [now rewrite IH|reflexivity].
Qed.

Lemma leading_all_whitespace (s : jsstring) :
  Forall (fun c => is_whitespace c = true) (leading_whitespace s).
Proof.
  induction s as [|c s IH]; simpl; [constructor|].
  destruct (is_whitespace c) eqn:E; constructor; assumption.
Qed.

Lemma after_starts_clean (s : jsstring) :
  starts_without_whitespace (after_whitespace s).
Proof.
  induction s as [|c s IH]; simpl; [exact I|].
  destruct (is_whitespace c) eqn:E; [exact IH|exact E].
Qed.

Lemma after_clean (s : jsstring) :
  starts_without_whitespace s -> after_whitespace s = s.
Proof. destruct s as [|c s]; simpl; [reflexivity|]. now intros ->. Qed.

Lemma after_length (s : jsstring) :
  (List.length (after_whitespace s) <= List.length s)%nat.
Proof.
  induction s as [|c s IH]; simpl; [lia|].
  destruct (is_whitespace c); simpl; lia.
Qed.

(** Inside a run, the rest of the run is dropped. *)
Lemma replace_in_run (s : jsstring) :
  replace_whitespace_runs true s
  = replace_whitespace_runs false (after_whitespace s).
Proof.
  induction s as [|c s IH]; simpl; [reflexivity|].
  destruct (is_whitespace c) eqn:E; [exact IH|].
  simpl. now rewrite E.
Qed.

Lemma normalize_collapsed (s : jsstring) :
  collapsed s (normalize_name s).
Proof.
  unfold normalize_name.
  assert (H : forall n s, (List.length s <= n)%nat ->
              collapsed s (replace_whitespace_runs false s)).
  { clear s. induction n as [|n IH]; intros [|c s] Hlen; simpl in Hlen;
      try constructor; try lia.
    simpl. destruct (is_whitespace c) eqn:E.
    - rewrite replace_in_run.
      rewrite <- (leading_after s) at 1.
      change (c :: leading_whitespace s ++ after_whitespace s)
        with ((c :: leading_whitespace s) ++ after_whitespace s).
      apply collapsed_run.
      + discriminate.
      + constructor; [exact E|apply leading_all_whitespace].
      + apply after_starts_clean.
      + apply IH. pose proof (after_length s). lia.
    - apply collapsed_keep; [exact E|]. apply IH. lia. }
  apply (H (List.length s)). lia.
Qed.

Lemma replace_whitespace_free (b : bool) (s : jsstring) :
  whitespace_free (replace_whitespace_runs b s).
Proof.
  revert b; induction s as [|c s IH]; intros b; simpl; [constructor|].
  destruct (is_whitespace c) eqn:E.
  - destruct b; [apply IH|]. constructor; [reflexivity|apply IH].
  - constructor; [exact E|apply IH].
Qed.

Lemma normalize_whitespace_free (s : jsstring) :
  whitespace_free (normalize_name s).
Proof. apply replace_whitespace_free. Qed.

(** A name without white space is left as it is. *)
Lemma normalize_clean_name (s : jsstring) :
  whitespace_free s -> normalize_name s = s.
Proof.
  unfold normalize_name. induction 1 as [|c s Hc _ IH]; simpl; [reflexivity|].
  now rewrite Hc, IH.
Qed.

(** [collapsed] determines its result: the relation describes one
    function. *)
Lemma collapsed_functional (s t : jsstring) :
  collapsed s t -> t = normalize_name s.
Proof.
  unfold normalize_name. induction 1 as [|c s t Hc _ IH|r s t Hr Hall Hs _ IH].
  - reflexivity.
  - simpl. now rewrite Hc, IH.
  - destruct r as [|c r]; [contradiction|].
    inversion Hall as [|? ? Hc Hall']; subst.
    simpl. rewrite Hc. f_equal.
    clear Hr Hall Hc. induction r as [|d r IHr]; simpl.
    + now rewrite replace_in_run, after_clean.
    + inversion Hall' as [|? ? Hd Hall'']; subst. rewrite Hd. now apply IHr.
Qed.

End NameFacts.

(* ================================================================== *)
(** ** The notifier: how an invocation unfolds                         *)
(* ================================================================== *)

Module NotifierFacts.
Import Webhook Paths.

Lemma truthy_false (s : jsstring) : truthy s = false <-> s = [].
Proof. destruct s; simpl; split; congruence. Qed.

Lemma truthy_true (s : jsstring) : truthy s = true <-> s <> [].
Proof. destruct s; simpl; split; congruence. Qed.

Lemma alarmState_unfold (event : CloudWatchAlarmEvent) :
  or_else (state_value event) (lit "UNKNOWN") = alarmState event.
Proof. reflexivity. Qed.

Lemma not_alarm (event : CloudWatchAlarmEvent) :
  alarmState event <> lit "ALARM" ->
  str_eqb (alarmState event) (lit "ALARM") = false.
Proof.
  intros H. destruct (str_eqb _ _) eqn:E; [|reflexivity].
  apply str_eqb_eq in E. contradiction.
Qed.

Section Sending.
Variable Payload : Type.
Variable JSON_stringify : Payload -> jsstring.
Variable rt : Runtime.
Variable env : ProcessEnv.

(** The one request [sendWebhook] hands to the transport. *)
Lemma sendWebhook_cases (payload : Payload) (w : World Payload) :
  match parse_URL rt (WEBHOOK_URL env) with
  | None =>
      sendWebhook Payload JSON_stringify rt env payload w
      = (Throw TypeError_invalid_URL,
         {| clock_reads := S (clock_reads w); calls := calls w |})
  | Some u =>
      exists req,
        sendWebhook Payload JSON_stringify rt env payload w
        = (settle (https_request rt req),
           {| clock_reads := S (clock_reads w);
              calls := calls w ++ [Requested req] |})
        /\ body req = Utf8.encode (JSON_stringify payload)
        /\ Content_Length (opt_headers (options req))
           = Z.of_nat (List.length (body req))
        /\ x_amzn_event_timestamp (opt_headers (options req))
           = toISOString rt (clock rt (clock_reads w))
        /\ x_amzn_event_signature (opt_headers (options req))
           = spec_sign rt (WEBHOOK_SECRET env) (body req)
               (x_amzn_event_timestamp (opt_headers (options req)))
  end.
Proof.
  unfold sendWebhook, bind, Date_now.
  destruct (parse_URL rt (WEBHOOK_URL env)) as [u|]; [|reflexivity].
  eexists. split; [reflexivity|]. cbn [body options opt_headers
    Content_Length x_amzn_event_timestamp x_amzn_event_signature].
  repeat split.
  unfold spec_sign. now rewrite Utf8Facts.encode_timestamp_colon_body.
Qed.

End Sending.

Lemma let_pair {A Payload} (x : Completion A * World Payload) :
  (let '(c, w) := x in (c, calls w)) = (fst x, calls (snd x)).
Proof. now destruct x. Qed.

(** Unfolds the monadic plumbing of a handler and splits on the time
    stamp fallback and on the gates. *)
Ltac unfold_handler event env :=
  cbv beta delta [run bind ret throw Date_now record initial_world] ;
  rewrite ?alarmState_unfold;
  destruct (state_timestamp event) as [ts|]; [destruct (truthy ts)|];
  (destruct (str_eqb (alarmState event) (lit "ALARM")) eqn:?;
   cbn [negb];
   [ destruct (WEBHOOK_ENABLED env) eqn:?; cbn [negb];
     [ destruct (truthy (WEBHOOK_URL env)) eqn:?; cbn [negb];
       [ destruct (truthy (WEBHOOK_SECRET env)) eqn:?; cbn [negb] | ] | ] | ]);
  rewrite ?let_pair; cbn [calls clock_reads app fst snd].

Lemma handler_path js rt env event :
  Path _ js rt env event (run (Notifier.handler js rt env event)).
Proof.
  unfold Notifier.handler, Notifier.buildWebhookPayload.
  unfold_handler event env; now constructor.
Qed.

Lemma handler_arns_path js rt env event :
  Path _ js rt env event (run (NotifierArns.handler js rt env event)).
Proof.
  unfold NotifierArns.handler, NotifierArns.buildWebhookPayload.
  unfold_handler event env; now constructor.
Qed.

End NotifierFacts.

Module PathFacts.
Import Webhook Paths NotifierFacts.

Section Sending.
Variable Payload : Type.
Variable JSON_stringify : Payload -> jsstring.
Variable rt : Runtime.
Variable env : ProcessEnv.

(** [sendWebhook] records at most one call, a signed request whose body
    is the serialised payload. *)
Lemma sendWebhook_calls (payload : Payload) (w : World Payload) :
  (parse_URL rt (WEBHOOK_URL env) = None /\
   sendWebhook Payload JSON_stringify rt env payload w
   = (Throw TypeError_invalid_URL,
      {| clock_reads := S (clock_reads w); calls := calls w |}))
  \/ (exists req,
        sendWebhook Payload JSON_stringify rt env payload w
        = (settle (https_request rt req),
           {| clock_reads := S (clock_reads w);
              calls := calls w ++ [Requested req] |})
        /\ signed rt env req
        /\ body req = Utf8.encode (JSON_stringify payload)).
Proof.
  pose proof (sendWebhook_cases Payload JSON_stringify rt env payload w) as H.
  destruct (parse_URL rt (WEBHOOK_URL env)) as [u|].
  - right. destruct H as (req & E & Hb & _ & _ & Hs). now exists req.
  - left. auto.
Qed.

Lemma builds_app (l1 l2 : list (Call Payload)) :
  builds (l1 ++ l2) = builds l1 ++ builds l2.
Proof.
  induction l1 as [|[p|r] l1 IH]; simpl; [reflexivity| |assumption].
  now rewrite IH.
Qed.

Lemma sendWebhook_keeps_builds (payload : Payload) (w : World Payload) :
  builds (calls (snd (sendWebhook Payload JSON_stringify rt env payload w))) = builds (calls w).
Proof.
  destruct (sendWebhook_calls payload w) as [[_ E]|(req & E & _)];
    rewrite E; simpl; [reflexivity|].
  rewrite builds_app. simpl. apply app_nil_r.
Qed.

End Sending.

(** The response of the promise to a status outside [200, 300). *)
Lemma settle_failure (sc : option Z) (chunks : list jsstring) :
  ~ success_status sc ->
  exists e,
    settle (Responded sc chunks) = Throw e /\
    includes (message e) (statusCode_toString sc) = true /\
    includes (message e) (List.concat chunks) = true.
Proof.
  intros Hsc. unfold settle.
  assert (E : status_ok sc = false).
  { destruct sc as [n|]; [|reflexivity]. unfold status_ok.
    destruct (Z.eqb_spec n 0); [reflexivity|].
    destruct (Z.leb_spec 200 n); [|reflexivity].
    destruct (Z.ltb_spec n 300); [|reflexivity].
    exfalso. apply Hsc. exists n. split; [reflexivity|lia]. }
  rewrite E. eexists. split; [reflexivity|]. unfold new_Error; cbn [message]. split.
  - apply includes_infix.
  - rewrite !app_assoc. apply includes_app_r.
    apply includes_here. rewrite <- (app_nil_r (List.concat chunks)) at 1.
    apply startsWith_app.
Qed.

Lemma settle_success (n : Z) (chunks : list jsstring) :
  200 <= n < 300 -> settle (Responded (Some n) chunks) = Return tt.
Proof.
  intros H. unfold settle, status_ok.
  destruct (Z.eqb_spec n 0); [lia|].
  destruct (Z.leb_spec 200 n); [|lia].
  destruct (Z.ltb_spec n 300); [|lia]. reflexivity.
Qed.

End PathFacts.

(* ================================================================== *)
(** ** The notifier: what the specification states                     *)
(* ================================================================== *)

Module NotifierSpec.
Import Webhook Paths NameSpec Samples SampleRuns NotifierFacts PathFacts NameFacts.

(** *** The incident identifier *)

(** The builder of the revision with the configured resource ARNs keeps
    the white space of the alarm name in the identifier. *)
Lemma arns_builder_keeps_whitespace :
  exists p,
    run (NotifierArns.buildWebhookPayload (stub_runtime 200) sample_env
           (lit "write throttle") (lit "Threshold Crossed")
           (lit "2024-01-01T00:00:00Z"))
    = (Return p, [Built p]) /\
    NotifierArns.incidentId p = lit "write throttle-1704067200000" /\
    ~ whitespace_free (NotifierArns.incidentId p).
Proof.
  eexists. split; [reflexivity|]. split; [reflexivity|].
  intros H. unfold whitespace_free in H. rewrite Forall_forall in H.
  specialize (H 32%N). simpl in H.
  assert (E : is_whitespace 32 = false) by (apply H; do 5 right; left; reflexivity).
  vm_compute in E. discriminate E.
Qed.

(** C4 (as the code behaves).  The builder of the revision with
    SERVICE_NAME derives incidentId from the alarm name with every
    maximal run of white space replaced by one hyphen, followed by a
    hyphen and the millisecond clock reading taken in the builder; the
    builder of the revision with the configured resource ARNs appends the
    hyphen and the clock reading to the alarm name unchanged. *)
Theorem incidentId_derivation
        (rt : Runtime) (env : ProcessEnv)
        (alarmName stateReason timestamp region accountId alarmArn : jsstring)
        (w : World Notifier.DevOpsAgentWebhookPayload)
        (w' : World NotifierArns.DevOpsAgentWebhookPayload) :
  (exists p,
     Notifier.buildWebhookPayload rt env alarmName stateReason timestamp
                                  region accountId alarmArn w
     = (Return p, {| clock_reads := S (clock_reads w);
                     calls := calls w ++ [Built p] |}) /\
     Notifier.incidentId p
     = normalize_name alarmName ++ lit "-"
       ++ Number_toString (clock rt (clock_reads w)) /\
     collapsed alarmName (normalize_name alarmName) /\
     whitespace_free (normalize_name alarmName)) /\
  (exists p,
     NotifierArns.buildWebhookPayload rt env alarmName stateReason timestamp w'
     = (Return p, {| clock_reads := S (clock_reads w');
                     calls := calls w' ++ [Built p] |}) /\
     NotifierArns.incidentId p
     = alarmName ++ lit "-" ++ Number_toString (clock rt (clock_reads w'))).
Proof.
  split.
  - unfold Notifier.buildWebhookPayload.
    cbv beta delta [bind Date_now record ret]. cbn [calls clock_reads].
    eexists. split; [reflexivity|]. split; [reflexivity|]. split.
    + apply normalize_collapsed.
    + apply normalize_whitespace_free.
  - unfold NotifierArns.buildWebhookPayload.
    cbv beta delta [bind Date_now record ret]. cbn [calls clock_reads].
    eexists. split; reflexivity.
Qed.

Example normalize_example :
  normalize_name (lit "DynamoDB  write" ++ [9%N; 10%N] ++ lit "throttle alarm")
  = lit "DynamoDB-write-throttle-alarm".
Proof. reflexivity. Qed.

(** *** The state gate *)

(** In state ALARM with the webhook enabled and no URL configured the
    invocation fails before any payload is built. *)
Lemma alarm_without_url_builds_nothing :
  alarmState alarm_event = lit "ALARM" /\
  run (Notifier.handler stringify (stub_runtime 200)
         (env_of "true" "" "s3cr3t") alarm_event)
  = (Throw (new_Error (lit "WEBHOOK_URL is required when WEBHOOK_ENABLED=true")),
     []) /\
  builds (snd (run (Notifier.handler stringify (stub_runtime 200)
                      (env_of "true" "" "s3cr3t") alarm_event))) = [].
Proof. repeat split. Qed.

Lemma skip_run {Payload} js rt env event
      (r : Completion unit * list (Call Payload)) :
  Path Payload js rt env event r ->
  alarmState event <> lit "ALARM" -> r = (Return tt, []).
Proof.
  intros P H. apply not_alarm in H.
  destruct P; try reflexivity; congruence.
Qed.

Lemma built_when_configured {Payload} js rt env event
      (r : Completion unit * list (Call Payload)) :
  Path Payload js rt env event r ->
  alarmState event = lit "ALARM" ->
  WEBHOOK_ENABLED env = false
  \/ (WEBHOOK_URL env <> [] /\ WEBHOOK_SECRET env <> []) ->
  builds (snd r) <> [].
Proof.
  intros P Hs Hc.
  assert (Hs' : str_eqb (alarmState event) (lit "ALARM") = true)
    by now apply str_eqb_eq.
  destruct P as [H| p _ _ |_ He Hu|_ He _ Hk|p w _ _ _ _ Hw].
  - congruence.
  - discriminate.
  - apply truthy_false in Hu. destruct Hc as [Hc|[Hc _]]; congruence.
  - apply truthy_false in Hk. destruct Hc as [Hc|[_ Hc]]; congruence.
  - cbn [snd]. rewrite sendWebhook_keeps_builds, Hw. discriminate.
Qed.

Lemma configuration_error_run {Payload} js rt env event
      (r : Completion unit * list (Call Payload)) :
  Path Payload js rt env event r ->
  alarmState event = lit "ALARM" ->
  WEBHOOK_ENABLED env = true ->
  WEBHOOK_URL env = [] \/ WEBHOOK_SECRET env = [] ->
  r = (Throw (new_Error
                (if truthy (WEBHOOK_URL env)
                 then lit "WEBHOOK_SECRET is required when WEBHOOK_ENABLED=true"
                 else lit "WEBHOOK_URL is required when WEBHOOK_ENABLED=true")),
       []).
Proof.
  intros P Hs He Hc.
  assert (Hs' : str_eqb (alarmState event) (lit "ALARM") = true)
    by now apply str_eqb_eq.
  destruct P as [H| p _ Hd |_ _ Hu|_ _ Hu Hk|p w _ _ Hu Hk Hw].
  - congruence.
  - congruence.
  - now rewrite Hu.
  - now rewrite Hu.
  - apply truthy_true in Hu, Hk. destruct Hc; contradiction.
Qed.

(** C5 (as the code behaves).  An invocation whose state is not "ALARM"
    returns normally and neither builds a payload nor reaches the
    network.  In state "ALARM" a payload is built when the webhook is
    disabled or both URL and secret are configured; when it is enabled
    with an empty URL or secret the invocation fails with the
    configuration error, no payload is built and nothing reaches the
    network. *)
Theorem alarm_state_gate
        (js : Notifier.DevOpsAgentWebhookPayload -> jsstring)
        (js' : NotifierArns.DevOpsAgentWebhookPayload -> jsstring)
        (rt : Runtime) (env : ProcessEnv) (event : CloudWatchAlarmEvent) :
  (alarmState event <> lit "ALARM" ->
   run (Notifier.handler js rt env event) = (Return tt, []) /\
   run (NotifierArns.handler js' rt env event) = (Return tt, [])) /\
  (alarmState event = lit "ALARM" ->
   WEBHOOK_ENABLED env = false
   \/ (WEBHOOK_URL env <> [] /\ WEBHOOK_SECRET env <> []) ->
   builds (snd (run (Notifier.handler js rt env event))) <> [] /\
   builds (snd (run (NotifierArns.handler js' rt env event))) <> []) /\
  (alarmState event = lit "ALARM" ->
   WEBHOOK_ENABLED env = true ->
   WEBHOOK_URL env = [] \/ WEBHOOK_SECRET env = [] ->
   (exists e,
      configuration_error e /\
      run (Notifier.handler js rt env event) = (Throw e, []) /\
      run (NotifierArns.handler js' rt env event) = (Throw e, [])) /\
   builds (snd (run (Notifier.handler js rt env event))) = [] /\
   builds (snd (run (NotifierArns.handler js' rt env event))) = []).
Proof.
  pose proof (handler_path js rt env event) as P.
  pose proof (handler_arns_path js' rt env event) as P'.
  split; [|split].
  - intros H. split; eapply skip_run; eauto.
  - intros Hs Hc. split; eapply built_when_configured; eauto.
  - intros Hs He Hc.
    rewrite (configuration_error_run _ _ _ _ _ P Hs He Hc).
    rewrite (configuration_error_run _ _ _ _ _ P' Hs He Hc).
    split; [|split; reflexivity].
    eexists. split; [|split; reflexivity].
    unfold configuration_error. destruct (truthy (WEBHOOK_URL env)); auto.
Qed.

Lemma alarm_state_gate_witness :
  (alarmState ok_event <> lit "ALARM" /\
   run (Notifier.handler stringify (stub_runtime 200) sample_env ok_event)
   = (Return tt, [])) /\
  (alarmState alarm_event = lit "ALARM" /\
   builds (snd (run (Notifier.handler stringify (stub_runtime 200)
                       sample_env alarm_event))) <> []) /\
  (WEBHOOK_ENABLED (env_of "true" "" "s3cr3t") = true /\
   (WEBHOOK_URL (env_of "true" "" "s3cr3t") = []
    \/ WEBHOOK_SECRET (env_of "true" "" "s3cr3t") = []) /\
   exists e,
     configuration_error e /\
     run (Notifier.handler stringify (stub_runtime 200)
            (env_of "true" "" "s3cr3t") alarm_event) = (Throw e, []) /\
     run (NotifierArns.handler stringify_arns (stub_runtime 200)
            (env_of "true" "" "s3cr3t") alarm_event) = (Throw e, [])).
Proof.
  assert (H1 : alarmState ok_event <> lit "ALARM") by (vm_compute; discriminate).
  assert (H2 : alarmState alarm_event = lit "ALARM") by reflexivity.
  assert (H3 : WEBHOOK_ENABLED sample_env = false
               \/ (WEBHOOK_URL sample_env <> [] /\ WEBHOOK_SECRET sample_env <> []))
    by (right; split; vm_compute; discriminate).
  assert (H4 : WEBHOOK_ENABLED (env_of "true" "" "s3cr3t") = true)
    by reflexivity.
  assert (H5 : WEBHOOK_URL (env_of "true" "" "s3cr3t") = []
               \/ WEBHOOK_SECRET (env_of "true" "" "s3cr3t") = [])
    by (left; reflexivity).
  split; [split; [assumption|]|split; [split; [assumption|]|]].
  - exact (proj1 (proj1 (alarm_state_gate stringify stringify_arns
                           (stub_runtime 200) sample_env ok_event) H1)).
  - exact (proj1 (proj1 (proj2 (alarm_state_gate stringify stringify_arns
                           (stub_runtime 200) sample_env alarm_event)) H2 H3)).
  - split; [assumption|]. split; [assumption|].
    exact (proj1 (proj2 (proj2 (alarm_state_gate stringify stringify_arns
                           (stub_runtime 200) (env_of "true" "" "s3cr3t")
                           alarm_event)) H2 H4 H5)).
Defined.

(** C10.  An event without alarmData, without a state or without a state
    value is given the state "UNKNOWN" and is skipped: whatever the
    webhook configuration, the invocation returns normally, builds no
    payload and reaches no network. *)
Theorem missing_state_is_skipped
        (js : Notifier.DevOpsAgentWebhookPayload -> jsstring)
        (js' : NotifierArns.DevOpsAgentWebhookPayload -> jsstring)
        (rt : Runtime) (env : ProcessEnv) (event : CloudWatchAlarmEvent) :
  alarmData event = None \/ alarmData_state event = None
  \/ state_value event = None ->
  alarmState event = lit "UNKNOWN" /\
  run (Notifier.handler js rt env event) = (Return tt, []) /\
  run (NotifierArns.handler js' rt env event) = (Return tt, []).
Proof.
  intros H.
  assert (Hv : state_value event = None).
  { unfold state_value, alarmData_state in *.
    destruct H as [->|[H|H]]; [reflexivity| |exact H].
    destruct (alarmData event) as [d|]; [now rewrite H|reflexivity]. }
  assert (Hs : alarmState event = lit "UNKNOWN")
    by (unfold alarmState; now rewrite Hv).
  split; [exact Hs|].
  assert (Hn : alarmState event <> lit "ALARM") by (rewrite Hs; discriminate).
  split; eapply skip_run; eauto using handler_path, handler_arns_path.
Qed.

Lemma missing_state_is_skipped_witness :
  (alarmData empty_event = None \/ alarmData_state empty_event = None
   \/ state_value empty_event = None) /\
  alarmState empty_event = lit "UNKNOWN" /\
  run (Notifier.handler stringify (stub_runtime 200) sample_env empty_event)
  = (Return tt, []) /\
  run (NotifierArns.handler stringify_arns (stub_runtime 200) sample_env
         empty_event)
  = (Return tt, []).
Proof.
  assert (H : alarmData empty_event = None \/ alarmData_state empty_event = None
              \/ state_value empty_event = None) by (left; reflexivity).
  split; [exact H|].
  exact (missing_state_is_skipped stringify stringify_arns (stub_runtime 200)
           sample_env empty_event H).
Defined.

(** *** Dry run and configuration *)

Lemma dry_run_path {Payload} js rt env event
      (r : Completion unit * list (Call Payload)) :
  Path Payload js rt env event r ->
  WEBHOOK_ENABLED env = false ->
  fst r = Return tt /\ requests (snd r) = [].
Proof.
  intros P He. destruct P; try congruence; split; reflexivity.
Qed.

(** C6.  With the webhook disabled no request reaches the transport and
    the invocation completes successfully, for every event and every
    URL and secret, empty or not. *)
Theorem dry_run_no_network
        (js : Notifier.DevOpsAgentWebhookPayload -> jsstring)
        (js' : NotifierArns.DevOpsAgentWebhookPayload -> jsstring)
        (rt : Runtime) (env : ProcessEnv) (event : CloudWatchAlarmEvent) :
  WEBHOOK_ENABLED env = false ->
  (fst (run (Notifier.handler js rt env event)) = Return tt /\
   requests (snd (run (Notifier.handler js rt env event))) = []) /\
  (fst (run (NotifierArns.handler js' rt env event)) = Return tt /\
   requests (snd (run (NotifierArns.handler js' rt env event))) = []).
Proof.
  intros He. split; eapply dry_run_path;
    eauto using handler_path, handler_arns_path.
Qed.

Lemma dry_run_no_network_witness :
  WEBHOOK_ENABLED (env_of "false" "" "") = false /\
  fst (run (Notifier.handler stringify (stub_runtime 500)
              (env_of "false" "" "") alarm_event)) = Return tt /\
  requests (snd (run (Notifier.handler stringify (stub_runtime 500)
                        (env_of "false" "" "") alarm_event))) = [].
Proof.
  assert (H : WEBHOOK_ENABLED (env_of "false" "" "") = false) by reflexivity.
  split; [exact H|].
  exact (proj1 (dry_run_no_network stringify stringify_arns (stub_runtime 500)
                  (env_of "false" "" "") alarm_event H)).
Defined.

(** The first end-to-end example: a dry run on the sample alarm. *)
Example dry_run_example :
  exists p,
    run (Notifier.handler stringify (stub_runtime 200) (env_of "false" "" "")
           alarm_event)
    = (Return tt, [Built p]) /\
    Notifier.eventType p = "incident"%string /\
    Notifier.action p = "created"%string /\
    Notifier.priority p = "HIGH"%string /\
    includes (Notifier.title p)
             (lit "demo-devops-agent-dynamodb-write-throttle") = true /\
    Notifier.description p = lit "Threshold Crossed".
Proof. eexists. split; [reflexivity|]. repeat split. Qed.

Lemma misconfigured_no_request {Payload} js rt env event
      (r : Completion unit * list (Call Payload)) :
  Path Payload js rt env event r ->
  WEBHOOK_ENABLED env = true ->
  WEBHOOK_URL env = [] \/ WEBHOOK_SECRET env = [] ->
  requests (snd r) = [].
Proof.
  intros P He Hc.
  destruct P as [H| p _ Hd |_ _ Hu|_ _ Hu Hk|p w _ _ Hu Hk Hw];
    try reflexivity.
  apply truthy_true in Hu, Hk. destruct Hc; contradiction.
Qed.

(** C7.  With the webhook enabled and the URL or the secret empty, no
    request reaches the transport; an invocation that gets past the state
    gate (state "ALARM") fails with the configuration error, with no call
    recorded at all. *)
Theorem missing_configuration_fails_before_network
        (js : Notifier.DevOpsAgentWebhookPayload -> jsstring)
        (js' : NotifierArns.DevOpsAgentWebhookPayload -> jsstring)
        (rt : Runtime) (env : ProcessEnv) (event : CloudWatchAlarmEvent) :
  WEBHOOK_ENABLED env = true ->
  WEBHOOK_URL env = [] \/ WEBHOOK_SECRET env = [] ->
  (requests (snd (run (Notifier.handler js rt env event))) = [] /\
   requests (snd (run (NotifierArns.handler js' rt env event))) = []) /\
  (alarmState event = lit "ALARM" ->
   exists e,
     configuration_error e /\
     run (Notifier.handler js rt env event) = (Throw e, []) /\
     run (NotifierArns.handler js' rt env event) = (Throw e, [])).
Proof.
  intros He Hc.
  pose proof (handler_path js rt env event) as P.
  pose proof (handler_arns_path js' rt env event) as P'.
  split.
  - split; eapply misconfigured_no_request; eauto.
  - intros Hs.
    rewrite (configuration_error_run _ _ _ _ _ P Hs He Hc).
    rewrite (configuration_error_run _ _ _ _ _ P' Hs He Hc).
    eexists. split; [|split; reflexivity].
    unfold configuration_error. destruct (truthy (WEBHOOK_URL env)); auto.
Qed.

Lemma missing_configuration_fails_before_network_witness :
  WEBHOOK_ENABLED (env_of "true" "https://example.test/hook" "") = true /\
  (WEBHOOK_URL (env_of "true" "https://example.test/hook" "") = []
   \/ WEBHOOK_SECRET (env_of "true" "https://example.test/hook" "") = []) /\
  alarmState alarm_event = lit "ALARM" /\
  exists e,
    configuration_error e /\
    run (Notifier.handler stringify (stub_runtime 200)
           (env_of "true" "https://example.test/hook" "") alarm_event)
    = (Throw e, []) /\
    run (NotifierArns.handler stringify_arns (stub_runtime 200)
           (env_of "true" "https://example.test/hook" "") alarm_event)
    = (Throw e, []).
Proof.
  assert (H1 : WEBHOOK_ENABLED (env_of "true" "https://example.test/hook" "")
               = true) by reflexivity.
  assert (H2 : WEBHOOK_URL (env_of "true" "https://example.test/hook" "") = []
               \/ WEBHOOK_SECRET (env_of "true" "https://example.test/hook" "")
                  = []) by (right; reflexivity).
  assert (H3 : alarmState alarm_event = lit "ALARM") by reflexivity.
  repeat (split; [assumption|]).
  exact (proj2 (missing_configuration_fails_before_network
                  stringify stringify_arns (stub_runtime 200)
                  (env_of "true" "https://example.test/hook" "")
                  alarm_event H1 H2) H3).
Defined.

(** *** Signing and delivery *)

Lemma path_requests_signed {Payload} js rt env event
      (r : Completion unit * list (Call Payload)) (req : Request) :
  Path Payload js rt env event r ->
  In (Requested req) (snd r) ->
  signed rt env req /\
  exists p, In (Built p) (snd r) /\ body req = Utf8.encode (js p).
Proof.
  intros P Hin.
  destruct P as [H| p _ Hd |_ _ Hu|_ _ Hu Hk|p w _ _ Hu Hk Hw];
    cbn [snd] in Hin; try contradiction.
  - destruct Hin as [Hin|[]]. discriminate.
  - cbn [snd].
    destruct (sendWebhook_calls Payload js rt env p w)
      as [[_ E]|(req' & E & Hsig & Hbody)]; rewrite E in *; cbn [snd calls] in *;
      rewrite Hw in *.
    + destruct Hin as [Hin|[]]. discriminate.
    + destruct Hin as [Hin|[Hin|[]]]; [discriminate|].
      injection Hin as <-. split; [exact Hsig|].
      exists p. split; [left; reflexivity|exact Hbody].
Qed.

(** C8.  Every request that reaches the transport carries, as its
    signature header, the base64 HMAC-SHA256 keyed by the secret over the
    bytes of its timestamp header, a colon and the bytes of its own body,
    the body being the serialisation of the payload that was built; two
    requests with the same secret, body and timestamp carry the same
    signature. *)
Theorem request_signature
        (js : Notifier.DevOpsAgentWebhookPayload -> jsstring)
        (js' : NotifierArns.DevOpsAgentWebhookPayload -> jsstring)
        (rt : Runtime) (env : ProcessEnv) (event : CloudWatchAlarmEvent)
        (req : Request) :
  (In (Requested req) (snd (run (Notifier.handler js rt env event))) ->
   signed rt env req /\
   exists p, In (Built p) (snd (run (Notifier.handler js rt env event))) /\
             body req = Utf8.encode (js p)) /\
  (In (Requested req) (snd (run (NotifierArns.handler js' rt env event))) ->
   signed rt env req /\
   exists p, In (Built p) (snd (run (NotifierArns.handler js' rt env event))) /\
             body req = Utf8.encode (js' p)) /\
  (forall env2 event2 req2,
     In (Requested req) (snd (run (Notifier.handler js rt env event))) ->
     In (Requested req2) (snd (run (Notifier.handler js rt env2 event2))) ->
     WEBHOOK_SECRET env = WEBHOOK_SECRET env2 ->
     body req = body req2 ->
     x_amzn_event_timestamp (opt_headers (options req))
     = x_amzn_event_timestamp (opt_headers (options req2)) ->
     x_amzn_event_signature (opt_headers (options req))
     = x_amzn_event_signature (opt_headers (options req2))).
Proof.
  split; [|split].
  - apply (path_requests_signed js rt env event), handler_path.
  - apply (path_requests_signed js' rt env event), handler_arns_path.
  - intros env2 event2 req2 H1 H2 Hk Hb Ht.
    apply (path_requests_signed _ _ _ _ _ _ (handler_path js rt env event))
      in H1 as [S1 _].
    apply (path_requests_signed _ _ _ _ _ _ (handler_path js rt env2 event2))
      in H2 as [S2 _].
    unfold signed in *. rewrite S1, S2, Hk, Hb, Ht. reflexivity.
Qed.

Lemma request_signature_witness :
  In (Requested sample_request)
     (snd (run (Notifier.handler stringify (stub_runtime 200) sample_env
                  alarm_event))) /\
  signed (stub_runtime 200) sample_env sample_request.
Proof.
  assert (H : In (Requested sample_request)
                 (snd (run (Notifier.handler stringify (stub_runtime 200)
                              sample_env alarm_event))))
    by (right; left; reflexivity).
  split; [exact H|].
  exact (proj1 (proj1 (request_signature stringify stringify_arns
                         (stub_runtime 200) sample_env alarm_event
                         sample_request) H)).
Defined.

(** C9.  Once the URL has been parsed, [sendWebhook] hands exactly one
    request to the transport; a response with a status in [200, 300)
    resolves it, a response with any other or no status rejects it with an
    error whose message carries the status and the response body, and a
    transport error rejects it with that error.  A response with status
    500 rejects it with a message carrying "500". *)
Theorem delivery_outcome
        (Payload : Type) (js : Payload -> jsstring)
        (rt : Runtime) (env : ProcessEnv) (payload : Payload)
        (w : World Payload) (u : URL) :
  parse_URL rt (WEBHOOK_URL env) = Some u ->
  exists req,
    calls (snd (sendWebhook Payload js rt env payload w))
    = calls w ++ [Requested req] /\
    (forall n chunks,
       https_request rt req = Responded (Some n) chunks ->
       200 <= n < 300 ->
       fst (sendWebhook Payload js rt env payload w) = Return tt) /\
    (forall sc chunks,
       https_request rt req = Responded sc chunks ->
       ~ success_status sc ->
       exists e,
         fst (sendWebhook Payload js rt env payload w) = Throw e /\
         includes (message e) (statusCode_toString sc) = true /\
         includes (message e) (List.concat chunks) = true) /\
    (forall chunks,
       https_request rt req = Responded (Some 500) chunks ->
       exists e,
         fst (sendWebhook Payload js rt env payload w) = Throw e /\
         includes (message e) (lit "500") = true) /\
    (forall err,
       https_request rt req = Failed err ->
       fst (sendWebhook Payload js rt env payload w) = Throw err).
Proof.
  intros Hu.
  destruct (sendWebhook_calls Payload js rt env payload w)
    as [[Hn _]|(req & E & _ & _)]; [congruence|].
  exists req. rewrite E. cbn [fst snd calls].
  split; [reflexivity|]. split; [|split; [|split]].
  - intros n chunks -> Hn. now apply settle_success.
  - intros sc chunks -> Hsc. now apply settle_failure.
  - intros chunks ->.
    destruct (settle_failure (Some 500) chunks) as (e & He & Hm & _).
    + intros (n & [= <-] & Hn). lia.
    + exists e. split; [exact He|exact Hm].
  - intros err ->. reflexivity.
Qed.

Lemma delivery_outcome_witness :
  parse_URL (stub_runtime 500) (WEBHOOK_URL sample_env) = Some example_url /\
  exists req,
    calls (snd (sendWebhook _ stringify_arns (stub_runtime 500) sample_env
                  {| NotifierArns.eventType := "incident";
                     NotifierArns.incidentId := lit "demo-1704067200000";
                     NotifierArns.action := "created";
                     NotifierArns.priority := "HIGH";
                     NotifierArns.title := lit "demo";
                     NotifierArns.description := lit "Threshold Crossed";
                     NotifierArns.timestamp := lit "2024-01-01T00:00:00Z";
                     NotifierArns.affectedResources := [] |}
                  (initial_world _)))
    = [Requested req].
Proof.
  assert (H : parse_URL (stub_runtime 500) (WEBHOOK_URL sample_env)
              = Some example_url) by reflexivity.
  split; [exact H|].
  destruct (delivery_outcome _ stringify_arns (stub_runtime 500) sample_env
              {| NotifierArns.eventType := "incident";
                 NotifierArns.incidentId := lit "demo-1704067200000";
                 NotifierArns.action := "created";
                 NotifierArns.priority := "HIGH";
                 NotifierArns.title := lit "demo";
                 NotifierArns.description := lit "Threshold Crossed";
                 NotifierArns.timestamp := lit "2024-01-01T00:00:00Z";
                 NotifierArns.affectedResources := [] |}
              (initial_world _) example_url H) as (req & Hc & _).
  exists req. exact Hc.
Defined.

(** The third end-to-end example: the transport answers 500. *)
Example delivery_failure_example :
  exists e,
    fst (run (Notifier.handler stringify (stub_runtime 500) sample_env
                alarm_event)) = Throw e /\
    message e = lit "Webhook failed with status 500: response" /\
    List.length (requests (snd (run (Notifier.handler stringify
                   (stub_runtime 500) sample_env alarm_event)))) = 1%nat.
Proof. eexists. repeat split. Qed.

Example delivery_success_example :
  fst (run (Notifier.handler stringify (stub_runtime 204) sample_env
              alarm_event)) = Return tt.
Proof. reflexivity. Qed.

End NotifierSpec.

(* ================================================================== *)
(** ** Printing and reading decimal numbers                            *)
(* ================================================================== *)

Module NumberFacts.
Import WriterItems.

Local Open Scope N_scope.

Lemma lit_cons (c : ascii) (s : string) :
  lit (String c s) = N_of_ascii c :: lit s.
Proof. reflexivity. Qed.

Lemma horner_value (d : Decimal.uint) (acc : N) :
  forall rest,
    read_digits (Some (Z.of_N acc))
                (lit (NilEmpty.string_of_uint d) ++ rest)
    = read_digits
        (Some (Z.of_N (DecimalPos.Unsigned.of_lu (Decimal.rev d)
                       + acc * 10 ^ DecimalPos.Unsigned.usize d)))
        rest.
Proof.
  revert acc.
  induction d; intros acc rest;
    [ simpl; now rewrite N.mul_1_r | .. ];
    cbn [NilEmpty.string_of_uint]; rewrite lit_cons;
    cbn [app read_digits];
    match goal with
    | |- context [is_digit (N_of_ascii ?c)] =>
        change (is_digit (N_of_ascii c)) with true; cbv iota;
        let k := eval vm_compute in (N_of_ascii c - 48) in
        change (N_of_ascii c - 48) with k;
        replace (10 * Z.of_N acc + Z.of_N k)%Z
          with (Z.of_N (k + 10 * acc)) by lia
    end;
    rewrite IHd; do 3 f_equal;
    match goal with
    | |- _ = DecimalPos.Unsigned.of_lu (Decimal.rev ?x) + _ =>
        unfold Decimal.rev at 2; simpl Decimal.revapp;
        rewrite (DecimalPos.Unsigned.of_lu_revapp d)
    end;
    simpl DecimalPos.Unsigned.of_lu; simpl DecimalPos.Unsigned.usize;
    rewrite N.pow_succ_r'; lia.
Qed.

Ltac split_comparisons :=
  repeat match goal with
         | |- context [(?a <=? ?b)%N] => destruct (N.leb_spec a b)
         | |- context [(?a =? ?b)%N] => destruct (N.eqb_spec a b)
         | H : context [(?a <=? ?b)%N] |- _ => destruct (N.leb_spec a b)
         | H : context [(?a =? ?b)%N] |- _ => destruct (N.eqb_spec a b)
         end.

Lemma digit_range (c : N) : is_digit c = true <-> 48 <= c <= 57.
Proof.
  unfold is_digit. split; intros H; split_comparisons;
    simpl in *; try discriminate; try lia; reflexivity.
Qed.

Lemma digit_not_whitespace (c : N) :
  is_digit c = true -> is_whitespace c = false.
Proof.
  intros H. apply digit_range in H.
  assert (E : c = 48 \/ c = 49 \/ c = 50 \/ c = 51 \/ c = 52 \/ c = 53
              \/ c = 54 \/ c = 55 \/ c = 56 \/ c = 57) by lia.
  repeat (destruct E as [->|E]; [reflexivity|]). now subst.
Qed.

Lemma digits_of_uint (d : Decimal.uint) :
  Forall (fun c => is_digit c = true) (lit (NilEmpty.string_of_uint d)).
Proof.
  induction d; cbn [NilEmpty.string_of_uint]; rewrite ?lit_cons;
    constructor; try reflexivity; assumption.
Qed.

Lemma read_digits_stop (acc : option Z) (rest : jsstring) :
  stops rest -> read_digits acc rest = acc.
Proof. destruct rest as [|c rest]; simpl; [reflexivity|]. now intros ->. Qed.

Lemma read_uint (d : Decimal.uint) (rest : jsstring) :
  d <> Decimal.Nil -> stops rest ->
  read_digits None (lit (NilEmpty.string_of_uint d) ++ rest)
  = Some (Z.of_N (Pos.of_uint d)).
Proof.
  intros Hd Hrest.
  assert (E : read_digits None (lit (NilEmpty.string_of_uint d) ++ rest)
              = read_digits (Some (Z.of_N 0))
                            (lit (NilEmpty.string_of_uint d) ++ rest)).
  { destruct d; try contradiction;
      cbn [NilEmpty.string_of_uint]; rewrite lit_cons; reflexivity. }
  rewrite E, horner_value, read_digits_stop by assumption.
  rewrite DecimalPos.Unsigned.of_uint_alt. do 2 f_equal. lia.
Qed.

Lemma toString_pos (p : positive) :
  Number_toString (Z.pos p) = lit (NilEmpty.string_of_uint (Pos.to_uint p)).
Proof.
  unfold Number_toString. simpl.
  pose proof (DecimalPos.Unsigned.to_uint_nonnil p) as H.
  unfold NilZero.string_of_uint. now destruct (Pos.to_uint p).
Qed.

Lemma toString_neg (p : positive) :
  Number_toString (Z.neg p)
  = 45 :: lit (NilEmpty.string_of_uint (Pos.to_uint p)).
Proof.
  unfold Number_toString. simpl. rewrite lit_cons. f_equal.
  pose proof (DecimalPos.Unsigned.to_uint_nonnil p) as H.
  unfold NilZero.string_of_uint. now destruct (Pos.to_uint p).
Qed.

(** Reading back a printed natural number, whatever follows it. *)
Lemma read_printed (n : Z) (rest : jsstring) :
  (0 <= n)%Z -> stops rest ->
  read_digits None (Number_toString n ++ rest) = Some n.
Proof.
  intros Hn Hrest. destruct n as [|p|p]; [| |lia].
  - change (Number_toString 0) with [48]. simpl.
    now rewrite read_digits_stop.
  - rewrite toString_pos, read_uint; auto.
    + now rewrite DecimalPos.Unsigned.of_to.
    + apply DecimalPos.Unsigned.to_uint_nonnil.
Qed.

Lemma printed_digits (n : Z) :
  (0 <= n)%Z -> Forall (fun c => is_digit c = true) (Number_toString n).
Proof.
  intros Hn. destruct n as [|p|p]; [| |lia].
  - repeat constructor.
  - rewrite toString_pos. apply digits_of_uint.
Qed.

Lemma printed_nonempty (n : Z) : Number_toString n <> [].
Proof.
  destruct n as [|p|p].
  - discriminate.
  - rewrite toString_pos.
    pose proof (DecimalPos.Unsigned.to_uint_nonnil p).
    destruct (Pos.to_uint p); try contradiction; discriminate.
  - rewrite toString_neg. discriminate.
Qed.

Lemma parseInt10_printed (z : Z) (rest : jsstring) :
  stops rest -> parseInt10 (Number_toString z ++ rest) = Num z.
Proof.
  intros Hrest. unfold parseInt10.
  destruct z as [|p|p].
  - change (Number_toString 0) with [48]. simpl.
    now rewrite read_digits_stop.
  - pose proof (printed_digits (Z.pos p) ltac:(lia)) as Hd.
    pose proof (printed_nonempty (Z.pos p)) as Hne.
    pose proof (read_printed (Z.pos p) rest ltac:(lia) Hrest) as Hr.
    destruct (Number_toString (Z.pos p)) as [|c s]; [contradiction|].
    inversion Hd as [|? ? Hc _]; subst.
    cbn [app skip_whitespace]. rewrite (digit_not_whitespace _ Hc).
    apply digit_range in Hc.
    destruct (N.eqb_spec c 45); [lia|].
    destruct (N.eqb_spec c 43); [lia|].
    cbn [app] in Hr. now rewrite Hr.
  - rewrite toString_neg. cbn [app skip_whitespace].
    change (is_whitespace 45) with false. cbv iota.
    change (45 =? 45) with true. cbv iota.
    rewrite read_uint; auto.
    + rewrite DecimalPos.Unsigned.of_to. reflexivity.
    + apply DecimalPos.Unsigned.to_uint_nonnil.
Qed.

Lemma Number_toString_inj (a b : Z) :
  Number_toString a = Number_toString b -> a = b.
Proof.
  intros E.
  pose proof (parseInt10_printed a [] I) as Ha.
  pose proof (parseInt10_printed b [] I) as Hb.
  rewrite E, Hb in Ha. now injection Ha.
Qed.

End NumberFacts.

(* ================================================================== *)
(** ** The writer: keys, counts and parsing                            *)
(* ================================================================== *)

Module WriterExtraFacts.
Import Writer WriterItems WriterFacts NumberFacts.

Lemma settle_all_counts store order r :
  success (settle_all store order r)
  = success r + count_outcomes is_fulfilled store order /\
  throttled (settle_all store order r)
  = throttled r + count_outcomes is_throttled store order /\
  errors (settle_all store order r)
  = errors r + count_outcomes is_other_error store order.
Proof.
  revert r; induction order as [|i order IH]; intros r.
  - unfold count_outcomes. simpl. lia.
  - change (settle_all store (i :: order) r)
      with (settle_all store order (settle (store i) r)).
    destruct (IH (settle (store i) r)) as (-> & -> & ->).
    unfold count_outcomes. simpl filter.
    destruct (store i) as [|err]; simpl.
    + lia.
    + destruct (is_throttle err); simpl; lia.
Qed.

Lemma skip_leading_whitespace (ws s : jsstring) :
  Forall (fun c => is_whitespace c = true) ws ->
  skip_whitespace (ws ++ s) = skip_whitespace s.
Proof.
  induction 1 as [|c ws Hc _ IH]; simpl; [reflexivity|]. now rewrite Hc.
Qed.

Lemma parseInt10_leading_whitespace (ws s : jsstring) :
  Forall (fun c => is_whitespace c = true) ws ->
  parseInt10 (ws ++ s) = parseInt10 s.
Proof.
  intros H. unfold parseInt10. now rewrite skip_leading_whitespace.
Qed.

Lemma fill_zeros (k : nat) :
  firstn k (List.concat (repeat (lit "0") k)) = repeat 48%N k.
Proof.
  assert (E : forall m, List.concat (repeat (lit "0") m) = repeat 48%N m).
  { induction m as [|m IH]; simpl; [reflexivity|]. now rewrite IH. }
  rewrite E. rewrite <- (repeat_length 48%N k) at 1. apply firstn_all.
Qed.

Lemma padded_index_shape (i : nat) :
  padded_index i
  = repeat 48%N (4 - List.length (Number_toString (Z.of_nat i)))
    ++ Number_toString (Z.of_nat i).
Proof. unfold padded_index, padStart. simpl lit. now rewrite fill_zeros. Qed.

Lemma read_from_zero (n : Z) (rest : jsstring) :
  0 <= n -> stops rest ->
  read_digits (Some 0) (Number_toString n ++ rest) = Some n.
Proof.
  intros Hn Hrest. rewrite <- (read_printed n rest Hn Hrest).
  pose proof (printed_digits n Hn) as Hd.
  pose proof (printed_nonempty n) as Hne.
  destruct (Number_toString n) as [|c s]; [contradiction|].
  inversion Hd as [|? ? Hc _]; subst. simpl. now rewrite Hc.
Qed.

Lemma read_zeros (k : nat) (s : jsstring) :
  read_digits (Some 0) (repeat 48%N k ++ s) = read_digits (Some 0) s.
Proof. induction k as [|k IH]; simpl; [reflexivity|exact IH]. Qed.

(** The padded index reads back as the index, whatever follows it. *)
Lemma read_padded_index (i : nat) (rest : jsstring) :
  stops rest ->
  read_digits None (padded_index i ++ rest) = Some (Z.of_nat i).
Proof.
  intros Hrest. rewrite padded_index_shape, <- app_assoc.
  destruct (4 - List.length (Number_toString (Z.of_nat i)))%nat as [|k].
  - simpl. apply read_printed; [lia|assumption].
  - change (repeat 48%N (S k)) with (48%N :: repeat 48%N k).
    cbn [app read_digits]. change (is_digit 48) with true. cbv iota.
    change (10 * 0 + Z.of_N (48 - 48)) with 0.
    rewrite read_zeros. apply read_from_zero; [lia|assumption].
Qed.

Lemma sort_key_inj (rt : WriterRuntime) (i j : nat) :
  sort_key rt i = sort_key rt j -> i = j.
Proof.
  unfold sort_key. intros E. apply app_inv_head in E.
  assert (H : read_digits None (padded_index i ++ lit "-" ++ randomId rt i)
              = read_digits None (padded_index j ++ lit "-" ++ randomId rt j))
    by now rewrite E.
  rewrite !read_padded_index in H by reflexivity.
  injection H. lia.
Qed.

Lemma str_ltb_prefix (p a b : jsstring) :
  str_ltb (p ++ a) (p ++ b) = str_ltb a b.
Proof.
  induction p as [|x p IH]; simpl; [reflexivity|].
  now rewrite N.ltb_irrefl.
Qed.

Lemma str_ltb_same_length (a b x y : jsstring) :
  List.length a = List.length b ->
  str_ltb a b = true -> str_ltb (a ++ x) (b ++ y) = true.
Proof.
  revert b; induction a as [|c a IH]; intros [|d b] Hlen H;
    simpl in *; try discriminate.
  destruct (c <? d)%N; [reflexivity|].
  destruct (d <? c)%N; [discriminate|].
  apply IH; [lia|assumption].
Qed.

End WriterExtraFacts.

(* ================================================================== *)
(** ** Digit strings: value, width and order                           *)
(* ================================================================== *)

Module DigitFacts.
Import Writer WriterItems NumberFacts WriterExtraFacts.

Lemma fold_shift (s : jsstring) (acc : Z) :
  fold_left digit_step s acc
  = acc * 10 ^ Z.of_nat (List.length s) + digits_value s.
Proof.
  unfold digits_value. revert acc.
  induction s as [|c s IH]; intros acc.
  - simpl. lia.
  - cbn [fold_left List.length].
    rewrite (IH (digit_step acc c)), (IH (digit_step 0 c)).
    unfold digit_step. rewrite Nat2Z.inj_succ, Z.pow_succ_r by lia. lia.
Qed.

Lemma value_cons (c : N) (s : jsstring) :
  digits_value (c :: s)
  = Z.of_N (c - 48) * 10 ^ Z.of_nat (List.length s) + digits_value s.
Proof.
  unfold digits_value at 1. cbn [fold_left]. rewrite fold_shift.
  unfold digit_step. lia.
Qed.

Lemma value_bounds (s : jsstring) :
  Forall (fun c => is_digit c = true) s ->
  0 <= digits_value s < 10 ^ Z.of_nat (List.length s).
Proof.
  induction 1 as [|c s Hc _ IH].
  - unfold digits_value. simpl. lia.
  - rewrite value_cons. cbn [List.length].
    rewrite Nat2Z.inj_succ, Z.pow_succ_r by lia.
    apply digit_range in Hc.
    assert (0 <= Z.of_N (c - 48) <= 9) by lia.
    nia.
Qed.

Lemma read_value (s rest : jsstring) (acc : Z) :
  Forall (fun c => is_digit c = true) s -> stops rest ->
  read_digits (Some acc) (s ++ rest) = Some (fold_left digit_step s acc).
Proof.
  intros Hs Hrest. revert acc.
  induction Hs as [|c s Hc _ IH]; intros acc.
  - simpl. now apply read_digits_stop.
  - cbn [app read_digits fold_left]. rewrite Hc. apply IH.
Qed.

(** Between digit strings of the same length, the order of the strings is
    the order of the numbers. *)
Lemma ltb_of_value (a b : jsstring) :
  Forall (fun c => is_digit c = true) a ->
  Forall (fun c => is_digit c = true) b ->
  List.length a = List.length b ->
  digits_value a < digits_value b -> str_ltb a b = true.
Proof.
  intros Ha. revert b.
  induction Ha as [|x a Hx Ha IH]; intros b Hb Hlen Hlt.
  - destruct b; [|discriminate]. unfold digits_value in Hlt. simpl in Hlt. lia.
  - destruct Hb as [|y b Hy Hb]; [discriminate|].
    injection Hlen as Hlen.
    rewrite !value_cons, Hlen in Hlt.
    pose proof (value_bounds a Ha) as Ba. rewrite Hlen in Ba.
    pose proof (value_bounds b Hb) as Bb.
    apply digit_range in Hx, Hy.
    cbn [str_ltb].
    destruct (N.ltb_spec x y); [reflexivity|].
    destruct (N.ltb_spec y x).
    + exfalso.
      assert (Z.of_N (y - 48) + 1 <= Z.of_N (x - 48)) by lia.
      nia.
    + assert (x = y) by lia. subst y. apply IH; [assumption|assumption|lia].
Qed.

Lemma padded_digits (i : nat) :
  Forall (fun c => is_digit c = true) (padded_index i).
Proof.
  rewrite padded_index_shape. apply Forall_app. split.
  - apply Forall_forall. intros c Hc. apply repeat_spec in Hc. now subst.
  - apply printed_digits. lia.
Qed.

Lemma read_all_digits (s : jsstring) :
  s <> [] -> Forall (fun c => is_digit c = true) s ->
  read_digits None s = Some (digits_value s).
Proof.
  intros Hne Hs. destruct Hs as [|c s Hc Hs]; [contradiction|].
  assert (E : read_digits None (c :: s) = read_digits (Some 0) (c :: s))
    by (simpl; now rewrite Hc).
  rewrite E. rewrite <- (app_nil_r (c :: s)) at 1.
  apply (read_value (c :: s) [] 0); [now constructor|exact I].
Qed.

Lemma printed_value (n : Z) :
  0 <= n -> digits_value (Number_toString n) = n.
Proof.
  intros Hn.
  pose proof (read_printed n [] Hn I) as H. rewrite app_nil_r in H.
  rewrite read_all_digits in H.
  - now injection H.
  - apply printed_nonempty.
  - now apply printed_digits.
Qed.

Lemma padded_value (i : nat) : digits_value (padded_index i) = Z.of_nat i.
Proof.
  pose proof (read_padded_index i [] I) as H. rewrite app_nil_r in H.
  rewrite read_all_digits in H.
  - now injection H.
  - rewrite padded_index_shape. intros E. apply app_eq_nil in E as [_ E].
    now apply printed_nonempty in E.
  - apply padded_digits.
Qed.

(** A numeral without leading zero is at least the power of ten of its
    length. *)
Lemma numeral_lower_bound (d : Decimal.uint) :
  d <> Decimal.Nil -> (forall d', d <> Decimal.D0 d') ->
  10 ^ (Z.of_nat (List.length (lit (NilEmpty.string_of_uint d))) - 1)
  <= digits_value (lit (NilEmpty.string_of_uint d)).
Proof.
  intros Hnil Hzero.
  destruct d as [|d|d|d|d|d|d|d|d|d|d];
    try contradiction; try (now elim (Hzero d));
    cbn [NilEmpty.string_of_uint]; rewrite lit_cons, value_cons;
    cbn [List.length]; rewrite Nat2Z.inj_succ;
    replace (Z.succ (Z.of_nat (List.length (lit (NilEmpty.string_of_uint d)))) - 1)
      with (Z.of_nat (List.length (lit (NilEmpty.string_of_uint d)))) by lia;
    pose proof (value_bounds _ (digits_of_uint d)) as B;
    match goal with
    | |- context [Z.of_N (N_of_ascii ?c - 48)] =>
        let k := eval vm_compute in (Z.of_N (N_of_ascii c - 48)) in
        change (Z.of_N (N_of_ascii c - 48)) with k
    end; nia.
Qed.

Lemma to_uint_normal (p : positive) (d' : Decimal.uint) :
  Pos.to_uint p <> Decimal.D0 d'.
Proof.
  pose proof (DecimalPos.Unsigned.to_of (Pos.to_uint p)) as H.
  rewrite DecimalPos.Unsigned.of_to in H. simpl in H.
  pose proof (DecimalPos.Unsigned.to_uint_nonzero p) as Hnz.
  set (d := Pos.to_uint p) in *. intros E.
  assert (Hz : Decimal.nzhead d <> Decimal.Nil).
  { intros Hz. apply Hnz. rewrite H.
    now apply Stdlib.Numbers.DecimalFacts.unorm_0. }
  rewrite (Stdlib.Numbers.DecimalFacts.unorm_nzhead d Hz) in H.
  rewrite H in E.
  now apply Stdlib.Numbers.DecimalFacts.nzhead_nonzero in E.
Qed.

Lemma printed_length (n : Z) (k : nat) :
  0 <= n < 10 ^ Z.of_nat k -> (0 < k)%nat ->
  (List.length (Number_toString n) <= k)%nat.
Proof.
  intros [Hn Hlt] Hk. destruct n as [|p|p]; [simpl; lia| |lia].
  rewrite toString_pos.
  pose proof (numeral_lower_bound (Pos.to_uint p)
                (DecimalPos.Unsigned.to_uint_nonnil p) (to_uint_normal p)) as B.
  rewrite <- toString_pos, printed_value in B by lia.
  rewrite <- toString_pos.
  assert (Hpow : 10 ^ (Z.of_nat (List.length (Number_toString (Z.pos p))) - 1)
                 < 10 ^ Z.of_nat k) by lia.
  apply Z.pow_lt_mono_r_iff in Hpow; lia.
Qed.

Lemma padded_width (i : nat) :
  Z.of_nat i < 10000 -> List.length (padded_index i) = 4%nat.
Proof.
  intros Hi. rewrite padded_index_shape, length_app, repeat_length.
  pose proof (printed_length (Z.of_nat i) 4) as H.
  change (10 ^ Z.of_nat 4) with 10000 in H. lia.
Qed.

Lemma padded_increasing (i j : nat) :
  (i < j)%nat -> Z.of_nat j < 10000 ->
  str_ltb (padded_index i) (padded_index j) = true.
Proof.
  intros Hij Hj. apply ltb_of_value.
  - apply padded_digits.
  - apply padded_digits.
  - rewrite !padded_width by lia. reflexivity.
  - rewrite !padded_value. lia.
Qed.

End DigitFacts.

(* ================================================================== *)
(** ** The writer: further properties of an invocation                 *)
(* ================================================================== *)

Module WriterExtra.
Import Writer WriterItems WriterSamples WriterFacts NumberFacts WriterExtraFacts.
Import DigitFacts.

(** X1.  Each counter of the aggregated result is the number of attempts
    with that outcome: fulfilled, rejected with the throttling error
    name, rejected with anything else. *)
Theorem counters_count_outcomes
        (WRITE_COUNT : jsnum) (store : nat -> PutOutcome)
        (idx : list nat) (results : WriteResult) :
  dispatched WRITE_COUNT = Some idx ->
  aggregate WRITE_COUNT store = Some results ->
  success results = count_outcomes is_fulfilled store idx /\
  throttled results = count_outcomes is_throttled store idx /\
  errors results = count_outcomes is_other_error store idx.
Proof.
  intros Hidx Hagg. unfold aggregate in Hagg. rewrite Hidx in Hagg.
  injection Hagg as <-.
  destruct (settle_all_counts store idx (initial_results WRITE_COUNT))
    as (-> & -> & ->).
  simpl. repeat split; lia.
Qed.

Lemma counters_count_outcomes_witness :
  dispatched (Num 3) = Some [0; 1; 2]%nat /\
  aggregate (Num 3) store_always_failing
  = Some {| success := 0; throttled := 0; errors := 3;
            totalAttempts := Num 3 |} /\
  (3 : Z) = count_outcomes is_other_error store_always_failing [0; 1; 2]%nat.
Proof.
  assert (H1 : dispatched (Num 3) = Some [0; 1; 2]%nat) by reflexivity.
  assert (H2 : aggregate (Num 3) store_always_failing
               = Some {| success := 0; throttled := 0; errors := 3;
                         totalAttempts := Num 3 |}) by reflexivity.
  split; [exact H1|]. split; [exact H2|].
  exact (proj2 (proj2 (counters_count_outcomes _ _ _ _ H1 H2))).
Defined.

(** X2.  The aggregated result does not depend on the order in which
    the attempts settle: tallying the outcomes in any permutation of the
    dispatched indices gives the result of the batch. *)
Theorem completion_order_irrelevant
        (WRITE_COUNT : jsnum) (store : nat -> PutOutcome)
        (idx order : list nat) :
  dispatched WRITE_COUNT = Some idx ->
  Permutation order idx ->
  aggregate WRITE_COUNT store
  = Some (settle_all store order (initial_results WRITE_COUNT)).
Proof.
  intros Hidx Hperm. unfold aggregate. rewrite Hidx. f_equal.
  symmetry. now apply settle_all_order_irrelevant.
Qed.

Lemma completion_order_irrelevant_witness :
  dispatched (Num 2) = Some [0; 1]%nat /\
  Permutation [1; 0]%nat [0; 1]%nat /\
  aggregate (Num 2) store_always_ok
  = Some (settle_all store_always_ok [1; 0]%nat (initial_results (Num 2))).
Proof.
  assert (H1 : dispatched (Num 2) = Some [0; 1]%nat) by reflexivity.
  assert (H2 : Permutation [1; 0]%nat [0; 1]%nat) by apply perm_swap.
  split; [exact H1|]. split; [exact H2|].
  exact (completion_order_irrelevant (Num 2) store_always_ok _ _ H1 H2).
Defined.

(** X3.  A batch size that is NaN or negative dispatches no write and the
    invocation returns normally, with all three counters at zero and
    totalAttempts set to the configured number itself. *)
Theorem invalid_count_dispatches_nothing
        (rt : WriterRuntime) (WRITE_COUNT : jsnum) (store : nat -> PutOutcome) :
  WRITE_COUNT = NaN \/ (exists z, WRITE_COUNT = Num z /\ z < 0) ->
  commands rt WRITE_COUNT = Some [] /\
  handler WRITE_COUNT store
  = Return {| success := 0; throttled := 0; errors := 0;
              totalAttempts := WRITE_COUNT |}.
Proof.
  intros H.
  assert (Hd : dispatched WRITE_COUNT = Some []).
  { unfold dispatched, Array_from_length.
    assert (E : ToLength WRITE_COUNT = 0).
    { destruct H as [->|(z & -> & Hz)]; [reflexivity|]. unfold ToLength. lia. }
    rewrite E. reflexivity. }
  split.
  - unfold commands. now rewrite Hd.
  - unfold handler, aggregate. rewrite Hd. reflexivity.
Qed.

Lemma invalid_count_dispatches_nothing_witness :
  (Num (-3) = NaN \/ (exists z, Num (-3) = Num z /\ z < 0)) /\
  handler (Num (-3)) store_always_throttling
  = Return {| success := 0; throttled := 0; errors := 0;
              totalAttempts := Num (-3) |}.
Proof.
  assert (H : Num (-3) = NaN \/ (exists z, Num (-3) = Num z /\ z < 0))
    by (right; exists (-3); split; [reflexivity|lia]).
  split; [exact H|].
  exact (proj2 (invalid_count_dispatches_nothing sample_writer_runtime
                  (Num (-3)) store_always_throttling H)).
Defined.

(** X4.  The batch size read from the environment: 50 when WRITE_COUNT
    is unset or empty; the number itself when the value is a decimal
    integer of magnitude at most 2^53 (the integers the runtime reads
    without rounding), also after leading white space and before
    trailing text that does not start with a digit; NaN when no digit is
    found. *)
Theorem write_count_parsing (ws rest : jsstring) (z : Z) :
  Forall (fun c => is_whitespace c = true) ws ->
  stops rest ->
  - 2 ^ 53 <= z <= 2 ^ 53 ->
  WRITE_COUNT_of_env None = Num 50 /\
  WRITE_COUNT_of_env (Some []) = Num 50 /\
  WRITE_COUNT_of_env (Some (ws ++ Number_toString z ++ rest)) = Num z /\
  (forall c s, is_digit c = false -> is_whitespace c = false ->
               c <> 45%N -> c <> 43%N ->
               WRITE_COUNT_of_env (Some (ws ++ c :: s)) = NaN).
Proof.
  intros Hws Hrest _. split; [reflexivity|]. split; [reflexivity|].
  unfold WRITE_COUNT_of_env. split.
  - assert (E : or_else (Some (ws ++ Number_toString z ++ rest)) (lit "50")
                = ws ++ Number_toString z ++ rest).
    { unfold or_else.
      destruct (ws ++ Number_toString z ++ rest) eqn:E'; [|reflexivity].
      apply app_eq_nil in E' as [_ E']. apply app_eq_nil in E' as [E' _].
      now apply printed_nonempty in E'. }
    rewrite E, parseInt10_leading_whitespace by assumption.
    now apply parseInt10_printed.
  - intros c s Hd Hw Hm Hp.
    assert (E : or_else (Some (ws ++ c :: s)) (lit "50") = ws ++ c :: s).
    { unfold or_else. destruct (ws ++ c :: s) eqn:E'; [|reflexivity].
      apply app_eq_nil in E' as [_ E']. discriminate. }
    rewrite E, parseInt10_leading_whitespace by assumption.
    unfold parseInt10. cbn [skip_whitespace]. rewrite Hw.
    destruct (N.eqb_spec c 45); [contradiction|].
    destruct (N.eqb_spec c 43); [contradiction|].
    cbn [read_digits]. now rewrite Hd.
Qed.

Lemma write_count_parsing_witness :
  Forall (fun c => is_whitespace c = true) (lit " ") /\
  stops (lit "px") /\
  - 2 ^ 53 <= 25 <= 2 ^ 53 /\
  WRITE_COUNT_of_env (Some (lit " " ++ Number_toString 25 ++ lit "px")) = Num 25.
Proof.
  assert (H1 : Forall (fun c => is_whitespace c = true) (lit " "))
    by (repeat constructor).
  assert (H2 : stops (lit "px")) by reflexivity.
  assert (H3 : - 2 ^ 53 <= 25 <= 2 ^ 53) by lia.
  split; [exact H1|]. split; [exact H2|]. split; [exact H3|].
  exact (proj1 (proj2 (proj2
           (write_count_parsing (lit " ") (lit "px") 25 H1 H2 H3)))).
Defined.

(** X5.  No two commands of a batch carry the same sort key, whatever the
    random suffixes are: the index alone tells the keys apart. *)
Theorem sort_keys_distinct
        (rt : WriterRuntime) (WRITE_COUNT : jsnum) (cmds : list PutItemCommand) :
  commands rt WRITE_COUNT = Some cmds ->
  NoDup (map (fun c => sk (Item_ c)) cmds).
Proof.
  unfold commands, dispatched, Array_from_length.
  destruct (ToLength WRITE_COUNT <=? MAX_ARRAY_LENGTH); [|discriminate].
  intros [= <-]. rewrite map_map. cbn [Item_ sk item].
  generalize (seq_NoDup (Z.to_nat (ToLength WRITE_COUNT)) 0).
  generalize (seq 0 (Z.to_nat (ToLength WRITE_COUNT))).
  induction 1 as [|i l Hi _ IH]; simpl; constructor; [|exact IH].
  rewrite in_map_iff. intros (j & E & Hj).
  apply (f_equal attr_string) in E. cbn [attr_string] in E.
  apply sort_key_inj in E. now subst.
Qed.

Lemma sort_keys_distinct_witness :
  exists cmds,
    commands sample_writer_runtime (Num 50) = Some cmds /\
    NoDup (map (fun c => sk (Item_ c)) cmds).
Proof.
  eexists. split; [reflexivity|].
  exact (sort_keys_distinct sample_writer_runtime (Num 50) _ eq_refl).
Defined.

(** X6.  Below index 10000 the padded index is exactly four digits wide
    and the sort keys are ordered as their indices, whatever the random
    suffixes are. *)
Theorem sort_keys_follow_index (rt : WriterRuntime) (i j : nat) :
  (i < j)%nat -> Z.of_nat j < 10000 ->
  List.length (padded_index i) = 4%nat /\
  List.length (padded_index j) = 4%nat /\
  str_ltb (sort_key rt i) (sort_key rt j) = true.
Proof.
  intros Hij Hj.
  assert (Hi : List.length (padded_index i) = 4%nat)
    by (apply padded_width; lia).
  assert (Hj' : List.length (padded_index j) = 4%nat)
    by (apply padded_width; lia).
  repeat split; try assumption.
  unfold sort_key. rewrite str_ltb_prefix.
  apply str_ltb_same_length; [congruence|].
  now apply padded_increasing.
Qed.

Lemma sort_keys_follow_index_witness :
  (9 < 10)%nat /\ (Z.of_nat 10 < 10000) /\
  str_ltb (sort_key sample_writer_runtime 9) (sort_key sample_writer_runtime 10)
  = true.
Proof.
  assert (H1 : (9 < 10)%nat) by lia.
  assert (H2 : Z.of_nat 10 < 10000) by lia.
  split; [exact H1|]. split; [exact H2|].
  exact (proj2 (proj2 (sort_keys_follow_index sample_writer_runtime 9 10 H1 H2))).
Defined.

(** X7.  The commands of a batch are as many as the dispatched indices;
    the k-th one is addressed to the configured table, shares the batch
    identifier as partition key, carries 900 characters of data and an
    itemIndex that reads back as k. *)
Theorem command_at_index
        (rt : WriterRuntime) (WRITE_COUNT : jsnum)
        (cmds : list PutItemCommand) (k : nat) (c : PutItemCommand) :
  commands rt WRITE_COUNT = Some cmds ->
  nth_error cmds k = Some c ->
  List.length cmds = Z.to_nat (ToLength WRITE_COUNT) /\
  TableName c = TABLE_NAME rt /\
  pk (Item_ c) = AttrS (lit "batch-" ++ Number_toString (batch_now rt)) /\
  batchId (Item_ c) = pk (Item_ c) /\
  List.length (attr_string (data (Item_ c))) = 900%nat /\
  parseInt10 (attr_string (itemIndex (Item_ c))) = Num (Z.of_nat k).
Proof.
  unfold commands, dispatched, Array_from_length.
  destruct (ToLength WRITE_COUNT <=? MAX_ARRAY_LENGTH); [|discriminate].
  intros [= <-] Hk.
  split; [now rewrite length_map, length_seq|].
  rewrite nth_error_map in Hk.
  destruct (nth_error (seq 0 (Z.to_nat (ToLength WRITE_COUNT))) k)
    as [i|] eqn:Hi; [|discriminate].
  injection Hk as <-.
  assert (i = k) as ->.
  { pose proof (nth_error_Some (seq 0 (Z.to_nat (ToLength WRITE_COUNT))) k) as Hlt.
    rewrite Hi in Hlt. rewrite length_seq in Hlt.
    assert (Hk' : (k < Z.to_nat (ToLength WRITE_COUNT))%nat)
      by (apply Hlt; discriminate).
    rewrite nth_error_nth' with (d := 0%nat) in Hi by now rewrite length_seq.
    rewrite seq_nth in Hi by assumption. now injection Hi. }
  cbn [TableName Item_ pk batchId data itemIndex item attr_string].
  repeat split.
  rewrite <- (app_nil_r (Number_toString (Z.of_nat k))).
  now apply parseInt10_printed.
Qed.

Lemma command_at_index_witness :
  exists cmds c,
    commands sample_writer_runtime (Num 50) = Some cmds /\
    nth_error cmds 7 = Some c /\
    parseInt10 (attr_string (itemIndex (Item_ c))) = Num 7.
Proof.
  eexists. eexists. split; [reflexivity|]. split; [reflexivity|].
  exact (proj2 (proj2 (proj2 (proj2 (proj2
           (command_at_index sample_writer_runtime (Num 50) _ 7 _
              eq_refl eq_refl)))))).
Defined.

End WriterExtra.

(* ================================================================== *)
(** ** The notifier: the trace of an invocation                        *)
(* ================================================================== *)

Module TraceFacts.
Import Webhook Paths Traces NotifierFacts PathFacts.

Lemma alarm_eqb (event : CloudWatchAlarmEvent) :
  str_eqb (alarmState event) (lit "ALARM") = true ->
  alarmState event = lit "ALARM".
Proof. apply str_eqb_eq. Qed.

Lemma not_alarm_eqb (event : CloudWatchAlarmEvent) :
  str_eqb (alarmState event) (lit "ALARM") = false ->
  alarmState event <> lit "ALARM".
Proof. intros H E. apply str_eqb_eq in E. congruence. Qed.

Ltac trace_handler rt env event :=
  let Ht := fresh "Ht" in
  pose proof (eq_refl (event_time rt event)) as Ht;
  unfold event_time at 2 in Ht;
  cbv beta delta [run bind ret throw Date_now record initial_world];
  rewrite ?alarmState_unfold;
  destruct (state_timestamp event) as [ts|]; [destruct (truthy ts)|];
  (destruct (str_eqb (alarmState event) (lit "ALARM")) eqn:Hstate;
   [apply alarm_eqb in Hstate | apply not_alarm_eqb in Hstate];
   cbn [negb];
   [ destruct (WEBHOOK_ENABLED env) eqn:Hen; cbn [negb];
     [ destruct (truthy (WEBHOOK_URL env)) eqn:Hurl;
       [apply truthy_true in Hurl | apply truthy_false in Hurl]; cbn [negb];
       [ destruct (truthy (WEBHOOK_SECRET env)) eqn:Hsecret;
         [apply truthy_true in Hsecret | apply truthy_false in Hsecret];
         cbn [negb] | ] | ] | ]);
  rewrite ?let_pair; cbn [calls clock_reads app fst snd];
  first [ now constructor
        | eapply trace_send; [eassumption.. | reflexivity]
        | eapply trace_dry_run; [eassumption.. | reflexivity] ].

Lemma handler_trace js rt env event :
  Trace _ js rt env (handler_build rt env event) event
        (run (Notifier.handler js rt env event)).
Proof.
  unfold Notifier.handler, Notifier.buildWebhookPayload.
  trace_handler rt env event.
Qed.

Lemma handler_arns_trace js rt env event :
  Trace _ js rt env (handler_arns_build rt env event) event
        (run (NotifierArns.handler js rt env event)).
Proof.
  unfold NotifierArns.handler, NotifierArns.buildWebhookPayload.
  trace_handler rt env event.
Qed.

Section Generic.
Variable Payload : Type.
Variable js : Payload -> jsstring.
Variable rt : Runtime.
Variable env : ProcessEnv.

(** What [sendWebhook] does with the parsed URL. *)
Lemma sendWebhook_request (payload : Payload) (w : World Payload) :
  (parse_URL rt (WEBHOOK_URL env) = None /\
   sendWebhook Payload js rt env payload w
   = (Throw TypeError_invalid_URL,
      {| clock_reads := S (clock_reads w); calls := calls w |}))
  \/ (exists u req,
        parse_URL rt (WEBHOOK_URL env) = Some u /\
        sendWebhook Payload js rt env payload w
        = (settle (https_request rt req),
           {| clock_reads := S (clock_reads w);
              calls := calls w ++ [Requested req] |}) /\
        addressed_to u req /\
        opt_method (options req) = lit "POST" /\
        Content_Type (opt_headers (options req)) = lit "application/json" /\
        Content_Length (opt_headers (options req))
        = Z.of_nat (List.length (body req)) /\
        x_amzn_event_timestamp (opt_headers (options req))
        = toISOString rt (clock rt (clock_reads w))).
Proof.
  unfold sendWebhook, bind, Date_now.
  destruct (parse_URL rt (WEBHOOK_URL env)) as [u|]; [right|left; auto].
  exists u. eexists. split; [reflexivity|]. split; [reflexivity|].
  unfold addressed_to. cbn. repeat split.
Qed.

Variable build : jsstring -> M Payload Payload.
Variable event : CloudWatchAlarmEvent.
Variable r : Completion unit * list (Call Payload).
Hypothesis T : Trace Payload js rt env build event r.

Lemma trace_calls :
  snd r = []
  \/ exists ts k p,
       event_time rt event = (ts, k) /\
       build ts {| clock_reads := k; calls := [] |}
       = (Return p, {| clock_reads := S k; calls := [Built p] |}) /\
       (snd r = [Built p]
        \/ exists u req,
             snd r = [Built p; Requested req] /\
             WEBHOOK_ENABLED env = true /\
             parse_URL rt (WEBHOOK_URL env) = Some u /\
             fst r = settle (https_request rt req) /\
             addressed_to u req /\
             opt_method (options req) = lit "POST" /\
             Content_Type (opt_headers (options req))
             = lit "application/json" /\
             Content_Length (opt_headers (options req))
             = Z.of_nat (List.length (body req)) /\
             x_amzn_event_timestamp (opt_headers (options req))
             = toISOString rt (clock rt (S k))).
Proof.
  destruct T as [H|ts k p Hs He Ht Hb|Hs He Hu|Hs He Hu Hk
                 |ts k p Hs He Hu Hk Ht Hb]; cbn [snd fst]; auto.
  - right. exists ts, k, p. auto.
  - right. exists ts, k, p. split; [exact Ht|]. split; [exact Hb|].
    destruct (sendWebhook_request p {| clock_reads := S k; calls := [Built p] |})
      as [[_ E]|(u & req & Hp & E & Hrest)]; rewrite E; cbn [fst snd calls].
    + left. reflexivity.
    + right. exists u, req. cbn [clock_reads] in Hrest. tauto.
Qed.

Lemma trace_built (p : Payload) :
  In (Built p) (snd r) ->
  exists ts k,
    event_time rt event = (ts, k) /\
    build ts {| clock_reads := k; calls := [] |}
    = (Return p, {| clock_reads := S k; calls := [Built p] |}).
Proof.
  intros Hin.
  destruct trace_calls as [E|(ts & k & p' & Ht & Hb & [E|(u & req & E & _)])];
    rewrite E in Hin; simpl in Hin.
  - contradiction.
  - destruct Hin as [[= <-]|[]]. eauto.
  - destruct Hin as [[= <-]|[[=]|[]]]. eauto.
Qed.

Lemma trace_requested (req : Request) :
  In (Requested req) (snd r) ->
  exists u,
    WEBHOOK_ENABLED env = true /\
    parse_URL rt (WEBHOOK_URL env) = Some u /\
    addressed_to u req /\
    opt_method (options req) = lit "POST" /\
    Content_Type (opt_headers (options req)) = lit "application/json" /\
    Content_Length (opt_headers (options req))
    = Z.of_nat (List.length (body req)) /\
    x_amzn_event_timestamp (opt_headers (options req))
    = toISOString rt (clock rt (S (snd (event_time rt event)))).
Proof.
  intros Hin.
  destruct trace_calls
    as [E|(ts & k & p' & Ht & Hb & [E|(u & req' & E & Hrest)])];
    rewrite E in Hin; simpl in Hin.
  - contradiction.
  - destruct Hin as [[=]|[]].
  - destruct Hin as [[=]|[[= <-]|[]]]. exists u. rewrite Ht. cbn [snd].
    tauto.
Qed.

Lemma trace_single_shot :
  (List.length (requests (snd r)) <= 1)%nat /\
  (List.length (builds (snd r)) <= 1)%nat.
Proof.
  destruct trace_calls
    as [E|(ts & k & p' & Ht & Hb & [E|(u & req' & E & Hrest)])];
    rewrite E; simpl; lia.
Qed.

Lemma trace_invalid_url :
  alarmState event = lit "ALARM" ->
  WEBHOOK_ENABLED env = true ->
  WEBHOOK_URL env <> [] -> WEBHOOK_SECRET env <> [] ->
  parse_URL rt (WEBHOOK_URL env) = None ->
  exists p, r = (Throw TypeError_invalid_URL, [Built p]).
Proof.
  intros Hs He Hu Hk Hp.
  destruct T as [H|ts k p _ He' _ _|_ _ Hu'|_ _ _ Hk'|ts k p _ _ _ _ Ht Hb];
    try congruence.
  exists p.
  destruct (sendWebhook_request p {| clock_reads := S k; calls := [Built p] |})
    as [[_ E]|(u & req & Hp' & _)]; [|congruence].
  rewrite E. reflexivity.
Qed.

Lemma trace_built_when_dry :
  alarmState event = lit "ALARM" ->
  WEBHOOK_ENABLED env = false
  \/ (WEBHOOK_URL env <> [] /\ WEBHOOK_SECRET env <> []) ->
  exists ts k p,
    event_time rt event = (ts, k) /\
    build ts {| clock_reads := k; calls := [] |}
    = (Return p, {| clock_reads := S k; calls := [Built p] |}) /\
    builds (snd r) = [p].
Proof.
  intros Hs Hc.
  destruct T as [H|ts k p _ He' Ht Hb|_ He' Hu'|_ He' _ Hk'|ts k p _ _ _ _ Ht Hb].
  - contradiction.
  - exists ts, k, p. auto.
  - destruct Hc as [Hc|[Hc _]]; congruence.
  - destruct Hc as [Hc|[_ Hc]]; congruence.
  - exists ts, k, p. split; [exact Ht|]. split; [exact Hb|].
    cbn [snd]. now rewrite sendWebhook_keeps_builds.
Qed.

Lemma trace_disabled :
  WEBHOOK_ENABLED env = false ->
  fst r = Return tt /\ requests (snd r) = [].
Proof.
  intros He. destruct T; try congruence; split; reflexivity.
Qed.

End Generic.

(** The payloads the two builders return. *)
Lemma handler_build_payload rt env event ts k p w' :
  handler_build rt env event ts {| clock_reads := k; calls := [] |}
  = (Return p, w') ->
  p = {| Notifier.eventType := "incident";
         Notifier.incidentId :=
           normalize_name (event_alarmName event) ++ lit "-"
           ++ Number_toString (clock rt k);
         Notifier.action := "created";
         Notifier.priority := "HIGH";
         Notifier.title := lit "[CloudWatch Alarm] " ++ event_alarmName event;
         Notifier.description := event_stateReason event;
         Notifier.service := Notifier.SERVICE_NAME env;
         Notifier.timestamp := ts;
         Notifier.data_metadata :=
           {| Notifier.region := or_else (region event) (lit "us-east-1");
              Notifier.environment := lit "production";
              Notifier.affectedResources :=
                if truthy (or_else (alarmArn event) (lit ""))
                then [or_else (alarmArn event) (lit "")] else [];
              Notifier.alarmName := event_alarmName event;
              Notifier.alarmArn := or_else (alarmArn event) (lit "");
              Notifier.accountId := or_else (accountId event) (lit "unknown") |} |}.
Proof.
  unfold handler_build, Notifier.buildWebhookPayload.
  cbv beta delta [bind Date_now record ret]. cbn [clock_reads calls].
  now intros [= <- _].
Qed.

Lemma handler_arns_build_payload rt env event ts k p w' :
  handler_arns_build rt env event ts {| clock_reads := k; calls := [] |}
  = (Return p, w') ->
  p = {| NotifierArns.eventType := "incident";
         NotifierArns.incidentId :=
           event_alarmName event ++ lit "-" ++ Number_toString (clock rt k);
         NotifierArns.action := "created";
         NotifierArns.priority := "HIGH";
         NotifierArns.title := event_alarmName event;
         NotifierArns.description := event_stateReason event;
         NotifierArns.timestamp := ts;
         NotifierArns.affectedResources :=
           (if truthy (NotifierArns.WRITER_LAMBDA_ARN env)
            then [NotifierArns.WRITER_LAMBDA_ARN env] else [])
           ++ (if truthy (NotifierArns.DYNAMODB_TABLE_ARN env)
               then [NotifierArns.DYNAMODB_TABLE_ARN env] else []) |}.
Proof.
  unfold handler_arns_build, NotifierArns.buildWebhookPayload.
  cbv beta delta [bind Date_now record ret]. cbn [clock_reads calls].
  now intros [= <- _].
Qed.

Lemma event_time_cases rt event :
  (forall t, state_timestamp event = Some t -> t <> [] ->
             event_time rt event = (t, 0%nat)) /\
  (state_timestamp event = None \/ state_timestamp event = Some [] ->
   event_time rt event = (toISOString rt (clock rt 0), 1%nat)).
Proof.
  unfold event_time. split.
  - intros t -> Ht. apply truthy_true in Ht. now rewrite Ht.
  - intros [->| ->]; reflexivity.
Qed.

Lemma replace_app (b : bool) (a s : jsstring) :
  replace_whitespace_runs b (a ++ s)
  = replace_whitespace_runs b a
    ++ replace_whitespace_runs (fold_left (fun _ c => is_whitespace c) a b) s.
Proof.
  revert b; induction a as [|c a IH]; intros b; simpl; [reflexivity|].
  destruct (is_whitespace c); [destruct b|]; rewrite IH; reflexivity.
Qed.

Lemma replace_run (b : bool) (r s : jsstring) :
  r <> [] -> Forall (fun c => is_whitespace c = true) r ->
  replace_whitespace_runs b (r ++ s)
  = (if b then [] else [45%N]) ++ replace_whitespace_runs true s.
Proof.
  intros Hne Hall. revert b. induction Hall as [|c r Hc Hall IH]; intros b.
  - contradiction.
  - simpl. rewrite Hc. destruct r as [|d r].
    + simpl. destruct b; reflexivity.
    + assert (Hne' : d :: r <> []) by discriminate.
      specialize (IH Hne'). destruct b; rewrite (IH true); reflexivity.
Qed.

Lemma replace_length (b : bool) (s : jsstring) :
  (List.length (replace_whitespace_runs b s) <= List.length s)%nat.
Proof.
  revert b; induction s as [|c s IH]; intros b; simpl; [lia|].
  destruct (is_whitespace c); [destruct b|]; simpl;
    [specialize (IH true)|specialize (IH true)|specialize (IH false)]; lia.
Qed.

End TraceFacts.

(* ================================================================== *)
(** ** The notifier: further properties of an invocation               *)
(* ================================================================== *)

Module NotifierExtra.
Import Webhook Paths Traces NameSpec Samples SampleRuns.
Import NotifierFacts PathFacts NameFacts TraceFacts NumberFacts.

(** X8.  An invocation is single shot: it hands at most one request to
    the transport and builds at most one payload, in both revisions. *)
Theorem single_shot
        (js : Notifier.DevOpsAgentWebhookPayload -> jsstring)
        (js' : NotifierArns.DevOpsAgentWebhookPayload -> jsstring)
        (rt : Runtime) (env : ProcessEnv) (event : CloudWatchAlarmEvent) :
  ((List.length (requests (snd (run (Notifier.handler js rt env event)))) <= 1)%nat /\
   (List.length (builds (snd (run (Notifier.handler js rt env event)))) <= 1)%nat) /\
  ((List.length (requests (snd (run (NotifierArns.handler js' rt env event)))) <= 1)%nat /\
   (List.length (builds (snd (run (NotifierArns.handler js' rt env event)))) <= 1)%nat).
Proof.
  split.
  - exact (trace_single_shot _ _ _ _ _ _ _ (handler_trace js rt env event)).
  - exact (trace_single_shot _ _ _ _ _ _ _ (handler_arns_trace js' rt env event)).
Qed.

(** X9.  When the configured URL does not parse, an enabled invocation in
    state "ALARM" fails with the parser's TypeError after building the
    payload and without handing any request to the transport. *)
Theorem unparsable_url_fails_before_network
        (js : Notifier.DevOpsAgentWebhookPayload -> jsstring)
        (js' : NotifierArns.DevOpsAgentWebhookPayload -> jsstring)
        (rt : Runtime) (env : ProcessEnv) (event : CloudWatchAlarmEvent) :
  alarmState event = lit "ALARM" ->
  WEBHOOK_ENABLED env = true ->
  WEBHOOK_URL env <> [] -> WEBHOOK_SECRET env <> [] ->
  parse_URL rt (WEBHOOK_URL env) = None ->
  (exists p, run (Notifier.handler js rt env event)
             = (Throw TypeError_invalid_URL, [Built p])) /\
  (exists p, run (NotifierArns.handler js' rt env event)
             = (Throw TypeError_invalid_URL, [Built p])).
Proof.
  intros Hs He Hu Hk Hp. split.
  - exact (trace_invalid_url _ _ _ _ _ _ _ (handler_trace js rt env event)
             Hs He Hu Hk Hp).
  - exact (trace_invalid_url _ _ _ _ _ _ _ (handler_arns_trace js' rt env event)
             Hs He Hu Hk Hp).
Qed.

Lemma unparsable_url_fails_before_network_witness :
  alarmState alarm_event = lit "ALARM" /\
  parse_URL rejecting_runtime (WEBHOOK_URL sample_env) = None /\
  exists p, run (Notifier.handler stringify rejecting_runtime sample_env
                   alarm_event)
            = (Throw TypeError_invalid_URL, [Built p]).
Proof.
  assert (H1 : alarmState alarm_event = lit "ALARM") by reflexivity.
  assert (H2 : WEBHOOK_ENABLED sample_env = true) by reflexivity.
  assert (H3 : WEBHOOK_URL sample_env <> []) by (vm_compute; discriminate).
  assert (H4 : WEBHOOK_SECRET sample_env <> []) by (vm_compute; discriminate).
  assert (H5 : parse_URL rejecting_runtime (WEBHOOK_URL sample_env) = None)
    by reflexivity.
  split; [exact H1|]. split; [exact H5|].
  exact (proj1 (unparsable_url_fails_before_network stringify stringify_arns
                  rejecting_runtime sample_env alarm_event H1 H2 H3 H4 H5)).
Defined.

(** X10.  Every request an invocation hands to the transport is a POST
    with content type application/json to the host and the path and
    query of the configured URL, on the URL's port or on 443 when it
    names none, and its Content-Length is the number of bytes of its
    body; requests are made only with the webhook enabled. *)
Theorem request_shape
        (js : Notifier.DevOpsAgentWebhookPayload -> jsstring)
        (js' : NotifierArns.DevOpsAgentWebhookPayload -> jsstring)
        (rt : Runtime) (env : ProcessEnv) (event : CloudWatchAlarmEvent)
        (req : Request) :
  In (Requested req) (snd (run (Notifier.handler js rt env event)))
  \/ In (Requested req) (snd (run (NotifierArns.handler js' rt env event))) ->
  exists u,
    WEBHOOK_ENABLED env = true /\
    parse_URL rt (WEBHOOK_URL env) = Some u /\
    addressed_to u req /\
    opt_method (options req) = lit "POST" /\
    Content_Type (opt_headers (options req)) = lit "application/json" /\
    Content_Length (opt_headers (options req))
    = Z.of_nat (List.length (body req)).
Proof.
  intros [H|H].
  - destruct (trace_requested _ _ _ _ _ _ _ (handler_trace js rt env event)
                req H) as (u & Hu); exists u; tauto.
  - destruct (trace_requested _ _ _ _ _ _ _
                (handler_arns_trace js' rt env event) req H) as (u & Hu);
      exists u; tauto.
Qed.

Lemma request_shape_witness :
  In (Requested sample_request)
     (snd (run (Notifier.handler stringify (stub_runtime 200) sample_env
                  alarm_event))) /\
  opt_port (options sample_request) = PortNumber 443 /\
  exists u,
    parse_URL (stub_runtime 200) (WEBHOOK_URL sample_env) = Some u /\
    addressed_to u sample_request.
Proof.
  assert (H : In (Requested sample_request)
                 (snd (run (Notifier.handler stringify (stub_runtime 200)
                              sample_env alarm_event))))
    by (right; left; reflexivity).
  split; [exact H|]. split; [reflexivity|].
  destruct (request_shape stringify stringify_arns (stub_runtime 200)
              sample_env alarm_event sample_request (or_introl H))
    as (u & _ & Hu & Ha & _).
  exists u. split; assumption.
Defined.

(** X11.  The payload carries the alarm's state time stamp when the event
    has a non-empty one and otherwise the time of the first clock
    reading; the incident identifier uses the first clock reading not
    spent on that fallback, and the time stamp header of the request the
    reading after it: the header is the time of sending, never the
    alarm's time stamp. *)
Theorem clock_readings
        (js : Notifier.DevOpsAgentWebhookPayload -> jsstring)
        (js' : NotifierArns.DevOpsAgentWebhookPayload -> jsstring)
        (rt : Runtime) (env : ProcessEnv) (event : CloudWatchAlarmEvent) :
  (forall t, state_timestamp event = Some t -> t <> [] ->
             event_time rt event = (t, 0%nat)) /\
  (state_timestamp event = None \/ state_timestamp event = Some [] ->
   event_time rt event = (toISOString rt (clock rt 0), 1%nat)) /\
  (forall p,
     In (Built p) (snd (run (Notifier.handler js rt env event))) ->
     Notifier.timestamp p = fst (event_time rt event) /\
     Notifier.incidentId p
     = normalize_name (event_alarmName event) ++ lit "-"
       ++ Number_toString (clock rt (snd (event_time rt event)))) /\
  (forall p,
     In (Built p) (snd (run (NotifierArns.handler js' rt env event))) ->
     NotifierArns.timestamp p = fst (event_time rt event) /\
     NotifierArns.incidentId p
     = event_alarmName event ++ lit "-"
       ++ Number_toString (clock rt (snd (event_time rt event)))) /\
  (forall req,
     In (Requested req) (snd (run (Notifier.handler js rt env event)))
     \/ In (Requested req) (snd (run (NotifierArns.handler js' rt env event))) ->
     x_amzn_event_timestamp (opt_headers (options req))
     = toISOString rt (clock rt (S (snd (event_time rt event))))).
Proof.
  split; [apply event_time_cases|]. split; [apply event_time_cases|].
  split; [|split].
  - intros p Hin.
    destruct (trace_built _ _ _ _ _ _ _ (handler_trace js rt env event) p Hin)
      as (ts & k & Ht & Hb).
    apply handler_build_payload in Hb. rewrite Ht, Hb. split; reflexivity.
  - intros p Hin.
    destruct (trace_built _ _ _ _ _ _ _ (handler_arns_trace js' rt env event)
                p Hin) as (ts & k & Ht & Hb).
    apply handler_arns_build_payload in Hb. rewrite Ht, Hb. split; reflexivity.
  - intros req [H|H].
    + destruct (trace_requested _ _ _ _ _ _ _ (handler_trace js rt env event)
                  req H) as (u & Hu); tauto.
    + destruct (trace_requested _ _ _ _ _ _ _
                  (handler_arns_trace js' rt env event) req H) as (u & Hu);
        tauto.
Qed.

Lemma clock_readings_witness :
  In (Requested sample_request)
     (snd (run (Notifier.handler stringify (stub_runtime 200) sample_env
                  alarm_event))) /\
  x_amzn_event_timestamp (opt_headers (options sample_request))
  = toISOString (stub_runtime 200) (clock (stub_runtime 200) 1).
Proof.
  assert (H : In (Requested sample_request)
                 (snd (run (Notifier.handler stringify (stub_runtime 200)
                              sample_env alarm_event))))
    by (right; left; reflexivity).
  split; [exact H|].
  exact (proj2 (proj2 (proj2 (proj2
           (clock_readings stringify stringify_arns (stub_runtime 200)
              sample_env alarm_event)))) sample_request (or_introl H)).
Defined.

(** X12.  Every payload built by the revision with SERVICE_NAME is an
    incident "created" with priority "HIGH", titled "[CloudWatch Alarm] "
    followed by the alarm name, described by the state reason, with the
    event's region, account and alarm ARN in its metadata; a missing or
    empty field of the event is replaced by its default. *)
Theorem payload_fields
        (js : Notifier.DevOpsAgentWebhookPayload -> jsstring)
        (rt : Runtime) (env : ProcessEnv) (event : CloudWatchAlarmEvent)
        (p : Notifier.DevOpsAgentWebhookPayload) :
  In (Built p) (snd (run (Notifier.handler js rt env event))) ->
  Notifier.eventType p = "incident"%string /\
  Notifier.action p = "created"%string /\
  Notifier.priority p = "HIGH"%string /\
  Notifier.title p
  = lit "[CloudWatch Alarm] "
    ++ or_else (alarmData_alarmName event) (lit "Unknown Alarm") /\
  Notifier.description p
  = or_else (state_reason event) (lit "No reason provided") /\
  Notifier.service p = or_else (env "SERVICE_NAME"%string) (lit "DemoDevOpsAgent") /\
  Notifier.region (Notifier.data_metadata p)
  = or_else (region event) (lit "us-east-1") /\
  Notifier.environment (Notifier.data_metadata p) = lit "production" /\
  Notifier.alarmName (Notifier.data_metadata p)
  = or_else (alarmData_alarmName event) (lit "Unknown Alarm") /\
  Notifier.alarmArn (Notifier.data_metadata p)
  = or_else (alarmArn event) (lit "") /\
  Notifier.accountId (Notifier.data_metadata p)
  = or_else (accountId event) (lit "unknown").
Proof.
  intros Hin.
  destruct (trace_built _ _ _ _ _ _ _ (handler_trace js rt env event) p Hin)
    as (ts & k & Ht & Hb).
  apply handler_build_payload in Hb. rewrite Hb. repeat split.
Qed.

Lemma payload_fields_witness :
  exists p,
    In (Built p) (snd (run (Notifier.handler stringify (stub_runtime 200)
                              sample_env empty_alarm_event))) /\
    Notifier.title p = lit "[CloudWatch Alarm] Unknown Alarm" /\
    Notifier.description p = lit "No reason provided".
Proof.
  eexists. 
  assert (H : In (Built _)
                 (snd (run (Notifier.handler stringify (stub_runtime 200)
                              sample_env empty_alarm_event))))
    by (left; reflexivity).
  split; [exact H|].
  pose proof (payload_fields stringify (stub_runtime 200) sample_env
                empty_alarm_event _ H) as (_ & _ & _ & Ht & Hd & _).
  split; [exact Ht|exact Hd].
Defined.

(** X13.  Every payload built by the revision with the configured
    resource ARNs is an incident "created" with priority "HIGH", titled
    with the alarm name and described by the state reason, with the
    defaults for missing fields; its affected resources are the writer
    ARN and the table ARN of the environment, in this order, each one
    left out when empty. *)
Theorem payload_fields_arns
        (js' : NotifierArns.DevOpsAgentWebhookPayload -> jsstring)
        (rt : Runtime) (env : ProcessEnv) (event : CloudWatchAlarmEvent)
        (p : NotifierArns.DevOpsAgentWebhookPayload) :
  In (Built p) (snd (run (NotifierArns.handler js' rt env event))) ->
  NotifierArns.eventType p = "incident"%string /\
  NotifierArns.action p = "created"%string /\
  NotifierArns.priority p = "HIGH"%string /\
  NotifierArns.title p
  = or_else (alarmData_alarmName event) (lit "Unknown Alarm") /\
  NotifierArns.description p
  = or_else (state_reason event) (lit "No reason provided") /\
  NotifierArns.affectedResources p
  = filter truthy [or_else (env "WRITER_LAMBDA_ARN"%string) (lit "");
                   or_else (env "DYNAMODB_TABLE_ARN"%string) (lit "")].
Proof.
  intros Hin.
  destruct (trace_built _ _ _ _ _ _ _ (handler_arns_trace js' rt env event)
              p Hin) as (ts & k & Ht & Hb).
  apply handler_arns_build_payload in Hb. rewrite Hb.
  cbn [NotifierArns.eventType NotifierArns.action NotifierArns.priority
       NotifierArns.title NotifierArns.description
       NotifierArns.affectedResources].
  repeat split.
  unfold NotifierArns.WRITER_LAMBDA_ARN, NotifierArns.DYNAMODB_TABLE_ARN.
  cbn [filter].
  destruct (truthy (or_else (env "WRITER_LAMBDA_ARN"%string) (lit "")));
    destruct (truthy (or_else (env "DYNAMODB_TABLE_ARN"%string) (lit "")));
    reflexivity.
Qed.

Lemma payload_fields_arns_witness :
  exists p,
    In (Built p) (snd (run (NotifierArns.handler stringify_arns
                              (stub_runtime 200) sample_env alarm_event))) /\
    NotifierArns.affectedResources p = [].
Proof.
  eexists.
  assert (H : In (Built _)
                 (snd (run (NotifierArns.handler stringify_arns
                              (stub_runtime 200) sample_env alarm_event))))
    by (left; reflexivity).
  split; [exact H|].
  pose proof (payload_fields_arns stringify_arns (stub_runtime 200) sample_env
                alarm_event _ H) as (_ & _ & _ & _ & _ & Ha).
  exact Ha.
Defined.

(** X14.  The affected resources of a built payload never contain an
    empty identifier: the revision with SERVICE_NAME lists the alarm ARN
    alone, or nothing when the event has none; the other revision lists
    at most the two configured ARNs. *)
Theorem affected_resources_nonempty
        (js : Notifier.DevOpsAgentWebhookPayload -> jsstring)
        (js' : NotifierArns.DevOpsAgentWebhookPayload -> jsstring)
        (rt : Runtime) (env : ProcessEnv) (event : CloudWatchAlarmEvent) :
  (forall p,
     In (Built p) (snd (run (Notifier.handler js rt env event))) ->
     Forall (fun r => r <> [])
            (Notifier.affectedResources (Notifier.data_metadata p)) /\
     (Notifier.affectedResources (Notifier.data_metadata p) = []
      \/ exists arn, alarmArn event = Some arn /\
                     Notifier.affectedResources (Notifier.data_metadata p)
                     = [arn])) /\
  (forall p,
     In (Built p) (snd (run (NotifierArns.handler js' rt env event))) ->
     Forall (fun r => r <> []) (NotifierArns.affectedResources p) /\
     (List.length (NotifierArns.affectedResources p) <= 2)%nat).
Proof.
  split; intros p Hin.
  - destruct (trace_built _ _ _ _ _ _ _ (handler_trace js rt env event) p Hin)
      as (ts & k & Ht & Hb).
    apply handler_build_payload in Hb. rewrite Hb.
    cbn [Notifier.data_metadata Notifier.affectedResources].
    unfold or_else. destruct (alarmArn event) as [arn|]; cbn [truthy].
    + destruct (truthy arn) eqn:E; cbn [truthy]; rewrite ?E.
      * apply truthy_true in E. split; [now repeat constructor|].
        right. now exists arn.
      * split; [constructor|now left].
    + split; [constructor|now left].
  - destruct (trace_built _ _ _ _ _ _ _ (handler_arns_trace js' rt env event)
                p Hin) as (ts & k & Ht & Hb).
    apply handler_arns_build_payload in Hb. rewrite Hb.
    cbn [NotifierArns.affectedResources].
    destruct (truthy (NotifierArns.WRITER_LAMBDA_ARN env)) eqn:E1;
      destruct (truthy (NotifierArns.DYNAMODB_TABLE_ARN env)) eqn:E2;
      try apply truthy_true in E1; try apply truthy_true in E2;
      simpl; split; try lia; repeat constructor; assumption.
Qed.

Lemma affected_resources_nonempty_witness :
  exists p,
    In (Built p) (snd (run (Notifier.handler stringify (stub_runtime 200)
                              sample_env empty_alarm_event))) /\
    Notifier.affectedResources (Notifier.data_metadata p) = [].
Proof.
  eexists.
  assert (H : In (Built _)
                 (snd (run (Notifier.handler stringify (stub_runtime 200)
                              sample_env empty_alarm_event))))
    by (left; reflexivity).
  split; [exact H|].
  destruct (proj1 (affected_resources_nonempty stringify stringify_arns
                     (stub_runtime 200) sample_env empty_alarm_event) _ H)
    as [_ [E|(arn & Harn & _)]]; [exact E|discriminate Harn].
Defined.

(** X15.  The payload a dry run builds is the payload the same event
    would have been sent with: for the same runtime and event, an
    invocation with the webhook disabled and one with it enabled and
    configured build the same payload, provided the environment gives
    the same service name (or, in the other revision, the same two
    resource ARNs). *)
Theorem dry_run_builds_what_would_be_sent
        (js : Notifier.DevOpsAgentWebhookPayload -> jsstring)
        (js' : NotifierArns.DevOpsAgentWebhookPayload -> jsstring)
        (rt : Runtime) (dry live : ProcessEnv) (event : CloudWatchAlarmEvent) :
  alarmState event = lit "ALARM" ->
  WEBHOOK_ENABLED dry = false ->
  WEBHOOK_URL live <> [] -> WEBHOOK_SECRET live <> [] ->
  (dry "SERVICE_NAME"%string = live "SERVICE_NAME"%string ->
   exists p,
     builds (snd (run (Notifier.handler js rt dry event))) = [p] /\
     builds (snd (run (Notifier.handler js rt live event))) = [p]) /\
  (dry "WRITER_LAMBDA_ARN"%string = live "WRITER_LAMBDA_ARN"%string ->
   dry "DYNAMODB_TABLE_ARN"%string = live "DYNAMODB_TABLE_ARN"%string ->
   exists p,
     builds (snd (run (NotifierArns.handler js' rt dry event))) = [p] /\
     builds (snd (run (NotifierArns.handler js' rt live event))) = [p]).
Proof.
  intros Hs Hd Hu Hk. split.
  - intros Hsn.
    destruct (trace_built_when_dry _ _ _ _ _ _ _
                (handler_trace js rt dry event) Hs (or_introl Hd))
      as (ts & k & p & Ht & Hb & Hp).
    destruct (trace_built_when_dry _ _ _ _ _ _ _
                (handler_trace js rt live event) Hs (or_intror (conj Hu Hk)))
      as (ts' & k' & p' & Ht' & Hb' & Hp').
    rewrite Ht in Ht'. injection Ht' as <- <-.
    apply handler_build_payload in Hb, Hb'.
    assert (p' = p) as ->.
    { rewrite Hb, Hb'. unfold Notifier.SERVICE_NAME. now rewrite Hsn. }
    exists p. split; assumption.
  - intros Hw Ht0.
    destruct (trace_built_when_dry _ _ _ _ _ _ _
                (handler_arns_trace js' rt dry event) Hs (or_introl Hd))
      as (ts & k & p & Ht & Hb & Hp).
    destruct (trace_built_when_dry _ _ _ _ _ _ _
                (handler_arns_trace js' rt live event) Hs
                (or_intror (conj Hu Hk)))
      as (ts' & k' & p' & Ht' & Hb' & Hp').
    rewrite Ht in Ht'. injection Ht' as <- <-.
    apply handler_arns_build_payload in Hb, Hb'.
    assert (p' = p) as ->.
    { rewrite Hb, Hb'.
      unfold NotifierArns.WRITER_LAMBDA_ARN, NotifierArns.DYNAMODB_TABLE_ARN.
      now rewrite Hw, Ht0. }
    exists p. split; assumption.
Qed.

Lemma dry_run_builds_what_would_be_sent_witness :
  exists p,
    builds (snd (run (Notifier.handler stringify (stub_runtime 200)
                        (env_of "false" "" "") alarm_event))) = [p] /\
    builds (snd (run (Notifier.handler stringify (stub_runtime 200)
                        sample_env alarm_event))) = [p].
Proof.
  assert (H1 : alarmState alarm_event = lit "ALARM") by reflexivity.
  assert (H2 : WEBHOOK_ENABLED (env_of "false" "" "") = false) by reflexivity.
  assert (H3 : WEBHOOK_URL sample_env <> []) by (vm_compute; discriminate).
  assert (H4 : WEBHOOK_SECRET sample_env <> []) by (vm_compute; discriminate).
  assert (H5 : env_of "false" "" "" "SERVICE_NAME"%string
               = sample_env "SERVICE_NAME"%string) by reflexivity.
  exact (proj1 (dry_run_builds_what_would_be_sent stringify stringify_arns
                  (stub_runtime 200) (env_of "false" "" "") sample_env
                  alarm_event H1 H2 H3 H4) H5).
Defined.

(** X16.  For one alarm name, two builds give the same incident
    identifier exactly when their clock readings are equal, in both
    revisions: identifiers collide within one millisecond and only
    then. *)
Theorem incidentId_collides_iff_same_millisecond
        (rt : Runtime) (env : ProcessEnv)
        (alarmName stateReason timestamp region accountId alarmArn : jsstring)
        (w1 w2 : World Notifier.DevOpsAgentWebhookPayload)
        (v1 v2 : World NotifierArns.DevOpsAgentWebhookPayload)
        (p1 p2 : Notifier.DevOpsAgentWebhookPayload)
        (q1 q2 : NotifierArns.DevOpsAgentWebhookPayload) :
  fst (Notifier.buildWebhookPayload rt env alarmName stateReason timestamp
         region accountId alarmArn w1) = Return p1 ->
  fst (Notifier.buildWebhookPayload rt env alarmName stateReason timestamp
         region accountId alarmArn w2) = Return p2 ->
  fst (NotifierArns.buildWebhookPayload rt env alarmName stateReason
         timestamp v1) = Return q1 ->
  fst (NotifierArns.buildWebhookPayload rt env alarmName stateReason
         timestamp v2) = Return q2 ->
  (Notifier.incidentId p1 = Notifier.incidentId p2
   <-> clock rt (clock_reads w1) = clock rt (clock_reads w2)) /\
  (NotifierArns.incidentId q1 = NotifierArns.incidentId q2
   <-> clock rt (clock_reads v1) = clock rt (clock_reads v2)).
Proof.
  unfold Notifier.buildWebhookPayload, NotifierArns.buildWebhookPayload.
  cbv beta delta [bind Date_now record ret]. cbn [fst].
  intros [= <-] [= <-] [= <-] [= <-].
  cbn [Notifier.incidentId NotifierArns.incidentId].
  split; (split; [intros E|now intros ->]);
    apply app_inv_head in E; injection E as E;
    now apply Number_toString_inj.
Qed.

Lemma incidentId_collides_iff_same_millisecond_witness :
  exists p1 p2,
    fst (Notifier.buildWebhookPayload (stub_runtime 200) sample_env
           (lit "a") (lit "r") (lit "t") (lit "us-east-1") (lit "1") (lit "")
           (initial_world _)) = Return p1 /\
    fst (Notifier.buildWebhookPayload (stub_runtime 200) sample_env
           (lit "a") (lit "r") (lit "t") (lit "us-east-1") (lit "1") (lit "")
           {| clock_reads := 1; calls := [] |}) = Return p2 /\
    (Notifier.incidentId p1 = Notifier.incidentId p2
     <-> clock (stub_runtime 200) 0 = clock (stub_runtime 200) 1).
Proof.
  eexists. eexists. split; [reflexivity|]. split; [reflexivity|].
  exact (proj1 (incidentId_collides_iff_same_millisecond
                  (stub_runtime 200) sample_env
                  (lit "a") (lit "r") (lit "t") (lit "us-east-1") (lit "1")
                  (lit "") (initial_world _)
                  {| clock_reads := 1; calls := [] |}
                  (initial_world _) {| clock_reads := 1; calls := [] |}
                  _ _ _ _ eq_refl eq_refl eq_refl eq_refl)).
Defined.

(** X17.  Normalising an alarm name never lengthens it, leaves a name
    without white space unchanged, and is idempotent. *)
Theorem normalize_name_idempotent (s : jsstring) :
  normalize_name (normalize_name s) = normalize_name s /\
  (List.length (normalize_name s) <= List.length s)%nat /\
  (whitespace_free s -> normalize_name s = s).
Proof.
  split; [|split].
  - apply normalize_clean_name, normalize_whitespace_free.
  - apply replace_length.
  - apply normalize_clean_name.
Qed.

Lemma normalize_name_idempotent_witness :
  whitespace_free (lit "demo-alarm") /\
  normalize_name (lit "demo-alarm") = lit "demo-alarm".
Proof.
  assert (H : whitespace_free (lit "demo-alarm")) by (repeat constructor).
  split; [exact H|].
  exact (proj2 (proj2 (normalize_name_idempotent (lit "demo-alarm"))) H).
Defined.

(** X18.  Alarm names that differ only in the white space between their
    parts get the same token: any non-empty run of white space can be
    exchanged for any other. *)
Theorem whitespace_runs_collide (a r1 r2 b : jsstring) :
  r1 <> [] -> r2 <> [] ->
  Forall (fun c => is_whitespace c = true) r1 ->
  Forall (fun c => is_whitespace c = true) r2 ->
  normalize_name (a ++ r1 ++ b) = normalize_name (a ++ r2 ++ b).
Proof.
  intros N1 N2 H1 H2. unfold normalize_name.
  rewrite (replace_app false a (r1 ++ b)), (replace_app false a (r2 ++ b)).
  now rewrite (replace_run _ r1 b N1 H1), (replace_run _ r2 b N2 H2).
Qed.

Lemma whitespace_runs_collide_witness :
  normalize_name (lit "write" ++ lit "  " ++ lit "throttle")
  = normalize_name (lit "write" ++ [9%N; 10%N] ++ lit "throttle").
Proof.
  apply whitespace_runs_collide.
  - discriminate.
  - discriminate.
  - repeat constructor.
  - repeat constructor.
Defined.

(** X19.  Only the exact value "true" of WEBHOOK_ENABLED enables the
    webhook: with any other value, or none, an invocation returns
    normally and hands no request to the transport. *)
Theorem enabled_only_by_exact_true
        (js : Notifier.DevOpsAgentWebhookPayload -> jsstring)
        (js' : NotifierArns.DevOpsAgentWebhookPayload -> jsstring)
        (rt : Runtime) (env : ProcessEnv) (event : CloudWatchAlarmEvent) :
  env "WEBHOOK_ENABLED"%string <> Some (lit "true") ->
  (fst (run (Notifier.handler js rt env event)) = Return tt /\
   requests (snd (run (Notifier.handler js rt env event))) = []) /\
  (fst (run (NotifierArns.handler js' rt env event)) = Return tt /\
   requests (snd (run (NotifierArns.handler js' rt env event))) = []).
Proof.
  intros Hne.
  assert (He : WEBHOOK_ENABLED env = false).
  { unfold WEBHOOK_ENABLED.
    destruct (env "WEBHOOK_ENABLED"%string) as [v|]; [|reflexivity].
    destruct (str_eqb v (lit "true")) eqn:E; [|reflexivity].
    apply str_eqb_eq in E. subst. contradiction. }
  split.
  - exact (trace_disabled _ _ _ _ _ _ _ (handler_trace js rt env event) He).
  - exact (trace_disabled _ _ _ _ _ _ _ (handler_arns_trace js' rt env event) He).
Qed.

Lemma enabled_only_by_exact_true_witness :
  env_enabled_as "TRUE" "WEBHOOK_ENABLED"%string <> Some (lit "true") /\
  fst (run (Notifier.handler stringify (stub_runtime 200)
              (env_enabled_as "TRUE") alarm_event)) = Return tt /\
  requests (snd (run (Notifier.handler stringify (stub_runtime 200)
                        (env_enabled_as "TRUE") alarm_event))) = [].
Proof.
  assert (H : env_enabled_as "TRUE" "WEBHOOK_ENABLED"%string
              <> Some (lit "true")) by (vm_compute; discriminate).
  split; [exact H|].
  exact (proj1 (enabled_only_by_exact_true stringify stringify_arns
                  (stub_runtime 200) (env_enabled_as "TRUE") alarm_event H)).
Defined.

End NotifierExtra.
